(** * Geometry calculator: shapes and the owning aggregator

    A shallow embedding of [04-cpp-geometry-calculator]:
    - [src/shapes/circle.cpp], [src/shapes/rectangle.cpp],
      [src/shapes/triangle.cpp]: the three shape variants;
    - [include/shapes/shape.h]: the abstract interface they implement;
    - [src/geometry_calculator.cpp]: the collection that owns shapes and
      folds their areas and perimeters.

    Every numeric attribute of the program is a C++ [double].  It is
    modelled as an IEEE 754 binary64 value ([spec_float] with 53 bits of
    precision), so that rounding, overflow, infinities and NaN behave as
    they do in the compiled program. *)

From Stdlib Require Import ZArith QArith Qabs Qpower Lqa List String Bool Lia.
From Stdlib Require Import Ascii DecimalString.
From Stdlib Require Import Floats.SpecFloat.
Import ListNotations.
Local Close Scope Q_scope.

(** ** The [double] type *)

Module Double.

Definition prec : Z := 53.
Definition emax : Z := 1024.

Definition double : Type := spec_float.

(** A [spec_float] is the image of a machine double when its mantissa
    and exponent are in canonical form. *)
Definition is_double (x : double) : bool := valid_binary prec emax x.

Definition is_nan (x : double) : bool :=
  match x with S754_nan => true | _ => false end.

Definition add : double -> double -> double := SFadd prec emax.
Definition sub : double -> double -> double := SFsub prec emax.
Definition mul : double -> double -> double := SFmul prec emax.
Definition div : double -> double -> double := SFdiv prec emax.
Definition sqrt : double -> double := SFsqrt prec emax.
Definition abs : double -> double := SFabs.

(** The comparison operators of C++ on doubles; each one is false as
    soon as an operand is NaN. *)
Definition ltb (x y : double) : bool := SFltb x y.
Definition leb (x y : double) : bool := SFleb x y.
Definition gtb (x y : double) : bool := SFltb y x.

(** Conversion of an integer literal, as in [radius <= 0] or
    [2 * M_PI * radius_]. *)
Definition of_int (z : Z) : double := binary_normalize prec emax z 0 false.

(** A literal given by its mantissa and binary exponent. *)
Definition of_bits (m : positive) (e : Z) : double := S754_finite false m e.

Definition NaN : double := S754_nan.

Declare Scope double_scope.
Delimit Scope double_scope with dbl.
Bind Scope double_scope with double.

Infix "+" := add : double_scope.
Infix "-" := sub : double_scope.
Infix "*" := mul : double_scope.
Infix "/" := div : double_scope.
Infix "<" := ltb : double_scope.
Infix "<=" := leb : double_scope.
Infix ">" := gtb : double_scope.

End Double.

Import Double.
Local Open Scope double_scope.
Local Open Scope string_scope.
Local Open Scope list_scope.

(** ** Constants of [<cmath>] and of the source *)

(** [M_PI] is the macro of [<cmath>]: the literal 3.14159265358979323846
    rounded to binary64, that is [0x1.921fb54442d18p+1]. *)
Definition M_PI : double := of_bits 0x1921fb54442d18 (-51).

(** [const double epsilon = 1e-9;] of [Triangle::isEquilateral] and
    [Triangle::isIsosceles]: the double nearest to 10^-9, that is
    [0x1.12e0be826d695p-30]. *)
Definition epsilon : double := of_bits 0x112e0be826d695 (-82).

(** ** Exceptions and member functions *)

(** [std::invalid_argument] with its [what()] message: the only exception
    the library throws.  The specification calls it [InvalidParameter]. *)
Inductive exception : Type :=
| invalid_argument (what : string).

(** Result of running a constructor or a member function: it returns a
    value or leaves by an exception. *)
Inductive outcome (A : Type) : Type :=
| Returns (a : A)
| Throws (e : exception).

Arguments Returns {A} a.
Arguments Throws {A} e.

(** A non-const member function of a class with state [S]: it runs on the
    object and yields an outcome together with the object as it is left. *)
Definition method (S A : Type) : Type := S -> outcome A * S.

Definition InvalidParameter {A : Type} (o : outcome A) : Prop :=
  exists what, o = Throws (invalid_argument what).

(** ** Circle ([shapes/circle.h], [shapes/circle.cpp]) *)

Module Circle.

Record t : Type := { radius_ : double }.

(** [Circle::Circle(double radius)] *)
Definition Circle (radius : double) : outcome t :=
  if radius <= of_int 0
  then Throws (invalid_argument "Circle radius must be positive")
  else Returns {| radius_ := radius |}.

Definition radius (self : t) : double := radius_ self.

(** [void Circle::setRadius(double radius)] *)
Definition setRadius (radius : double) : method t unit :=
  fun self =>
    if radius <= of_int 0
    then (Throws (invalid_argument "Circle radius must be positive"), self)
    else (Returns tt, {| radius_ := radius |}).

Definition area (self : t) : double :=
  M_PI * radius_ self * radius_ self.

Definition perimeter (self : t) : double :=
  of_int 2 * M_PI * radius_ self.

Definition name (self : t) : string := "Circle".

Definition isValid (self : t) : bool :=
  radius_ self > of_int 0.

End Circle.

(** ** Rectangle ([shapes/rectangle.h], [shapes/rectangle.cpp]) *)

Module Rectangle.

Record t : Type := { width_ : double; height_ : double }.

(** [Rectangle::Rectangle(double width, double height)] *)
Definition Rectangle (width height : double) : outcome t :=
  if (width <= of_int 0) || (height <= of_int 0)
  then Throws (invalid_argument "Rectangle dimensions must be positive")
  else Returns {| width_ := width; height_ := height |}.

Definition width (self : t) : double := width_ self.
Definition height (self : t) : double := height_ self.

(** [void Rectangle::setDimensions(double width, double height)] *)
Definition setDimensions (width height : double) : method t unit :=
  fun self =>
    if (width <= of_int 0) || (height <= of_int 0)
    then (Throws (invalid_argument "Rectangle dimensions must be positive"),
          self)
    else (Returns tt, {| width_ := width; height_ := height |}).

Definition area (self : t) : double :=
  width_ self * height_ self.

Definition perimeter (self : t) : double :=
  of_int 2 * (width_ self + height_ self).

Definition name (self : t) : string := "Rectangle".

Definition isValid (self : t) : bool :=
  (width_ self > of_int 0) && (height_ self > of_int 0).

End Rectangle.

(** ** Triangle ([shapes/triangle.h], [shapes/triangle.cpp]) *)

Module Triangle.

Record t : Type :=
  { side_a_ : double; side_b_ : double; side_c_ : double }.

(** [bool Triangle::satisfiesTriangleInequality() const] *)
Definition satisfiesTriangleInequality (self : t) : bool :=
  (side_a_ self + side_b_ self > side_c_ self) &&
  (side_b_ self + side_c_ self > side_a_ self) &&
  (side_a_ self + side_c_ self > side_b_ self).

(** [Triangle::Triangle(double side_a, double side_b, double side_c)]:
    the members are initialised first, then the two checks run, the
    second one on the members. *)
Definition Triangle (side_a side_b side_c : double) : outcome t :=
  let self :=
    {| side_a_ := side_a; side_b_ := side_b; side_c_ := side_c |} in
  if (side_a <= of_int 0) || (side_b <= of_int 0) || (side_c <= of_int 0)
  then Throws (invalid_argument "Triangle sides must be positive")
  else if negb (satisfiesTriangleInequality self)
  then Throws (invalid_argument "Triangle inequality not satisfied")
  else Returns self.

Definition sides (self : t) : double * double * double :=
  (side_a_ self, side_b_ self, side_c_ self).

(** [void Triangle::setSides(double side_a, double side_b, double side_c)] *)
Definition setSides (side_a side_b side_c : double) : method t unit :=
  fun self =>
    if (side_a <= of_int 0) || (side_b <= of_int 0) || (side_c <= of_int 0)
    then (Throws (invalid_argument "Triangle sides must be positive"), self)
    else if (side_a + side_b <= side_c) ||
            (side_b + side_c <= side_a) ||
            (side_a + side_c <= side_b)
    then (Throws (invalid_argument "Triangle inequality not satisfied"),
          self)
    else (Returns tt,
          {| side_a_ := side_a; side_b_ := side_b; side_c_ := side_c |}).

Definition isEquilateral (self : t) : bool :=
  (abs (side_a_ self - side_b_ self) < epsilon) &&
  (abs (side_b_ self - side_c_ self) < epsilon).

Definition isIsosceles (self : t) : bool :=
  (abs (side_a_ self - side_b_ self) < epsilon) ||
  (abs (side_b_ self - side_c_ self) < epsilon) ||
  (abs (side_a_ self - side_c_ self) < epsilon).

Definition perimeter (self : t) : double :=
  side_a_ self + side_b_ self + side_c_ self.

(** The argument of [std::sqrt] in [Triangle::area], with
    [s = perimeter() / 2.0] (the literal [2.0] and the converted integer
    [2] are the same double). *)
Definition radicand (self : t) : double :=
  let s := perimeter self / of_int 2 in
  s * (s - side_a_ self) * (s - side_b_ self) * (s - side_c_ self).

(** [double Triangle::area() const], Heron's formula. *)
Definition area (self : t) : double :=
  sqrt (radicand self).

Definition name (self : t) : string :=
  if isEquilateral self then "Equilateral Triangle"
  else if isIsosceles self then "Isosceles Triangle"
  else "Scalene Triangle".

Definition isValid (self : t) : bool :=
  (side_a_ self > of_int 0) && (side_b_ self > of_int 0) &&
  (side_c_ self > of_int 0) && satisfiesTriangleInequality self.

End Triangle.

(** ** Shape ([shapes/shape.h]) *)

Module Shape.

(** An object of the abstract class [Shape] is an instance of one of
    its three subclasses. *)
Inductive t : Type :=
| circle (c : Circle.t)
| rectangle (r : Rectangle.t)
| triangle (x : Triangle.t).

(** The four pure virtual member functions, dispatched on the dynamic
    type. *)
Definition area (self : t) : double :=
  match self with
  | circle c => Circle.area c
  | rectangle r => Rectangle.area r
  | triangle x => Triangle.area x
  end.

Definition perimeter (self : t) : double :=
  match self with
  | circle c => Circle.perimeter c
  | rectangle r => Rectangle.perimeter r
  | triangle x => Triangle.perimeter x
  end.

Definition name (self : t) : string :=
  match self with
  | circle c => Circle.name c
  | rectangle r => Rectangle.name r
  | triangle x => Triangle.name x
  end.

Definition isValid (self : t) : bool :=
  match self with
  | circle c => Circle.isValid c
  | rectangle r => Rectangle.isValid r
  | triangle x => Triangle.isValid x
  end.

End Shape.

(** ** GeometryCalculator ([geometry_calculator.h], [geometry_calculator.cpp]) *)

Module GeometryCalculator.

(** [std::vector<std::unique_ptr<Shape>> shapes_].  A
    [std::unique_ptr<Shape>] argument is an [option]: [None] is the null
    pointer.  [addShape] is the only writer of the vector and never
    stores a null pointer, so the stored elements are shapes. *)
Record t : Type := { shapes_ : list Shape.t }.

(** The implicit default constructor. *)
Definition GeometryCalculator : t := {| shapes_ := [] |}.

(** [void GeometryCalculator::addShape(std::unique_ptr<Shape> shape)] *)
Definition addShape (shape : option Shape.t) : method t unit :=
  fun self =>
    match shape with
    | Some s =>
        if Shape.isValid s
        then (Returns tt, {| shapes_ := shapes_ self ++ [s] |})
        else (Returns tt, self)
    | None => (Returns tt, self)
    end.

(** [size_t GeometryCalculator::shapeCount() const] *)
Definition shapeCount (self : t) : nat := List.length (shapes_ self).

(** [double GeometryCalculator::totalArea() const]: the range-for loop
    that adds to [total], started at [0.0]. *)
Definition totalArea (self : t) : double :=
  fold_left (fun total shape => total + Shape.area shape)
            (shapes_ self) (of_int 0).

(** [double GeometryCalculator::totalPerimeter() const] *)
Definition totalPerimeter (self : t) : double :=
  fold_left (fun total shape => total + Shape.perimeter shape)
            (shapes_ self) (of_int 0).

(** [void GeometryCalculator::clear()] *)
Definition clear : method t unit :=
  fun self => (Returns tt, {| shapes_ := [] |}).

(** [const Shape* GeometryCalculator::getShape(size_t index) const]:
    [None] is the null pointer. *)
Definition getShape (index : nat) (self : t) : option Shape.t :=
  if (List.length (shapes_ self) <=? index)%nat
  then None
  else nth_error (shapes_ self) index.

End GeometryCalculator.

(** ** [GeometryCalculator::getShapesInfo] *)

(** The character the source writes as a backslash followed by n. *)
Definition newline : string := String (ascii_of_nat 10) EmptyString.

(** [operator<<] of an output stream on a [size_t]: the number in
    decimal. *)
Definition show_size_t (n : nat) : string :=
  NilEmpty.string_of_uint (Nat.to_uint n).

Section ShapesInfo.

(** [operator<<] on a [double] once [std::fixed] and
    [std::setprecision(2)] are set: the formatting is the standard
    library's and stays a parameter. *)
Variable show_double : double -> string.

(** The body of the loop: the three lines written to the stream [oss] for
    the shape at index [i]. *)
Definition write_shape (oss : string) (i : nat) (shape : Shape.t) : string :=
  (oss ++ "Shape " ++ show_size_t (i + 1) ++ ": " ++ Shape.name shape
       ++ newline
       ++ "  Area: " ++ show_double (Shape.area shape) ++ newline
       ++ "  Perimeter: " ++ show_double (Shape.perimeter shape)
       ++ newline ++ newline)%string.

(** The loop [for (size_t i = 0; i < shapes_.size(); ++i)], from index
    [i] on. *)
Fixpoint write_shapes (oss : string) (i : nat) (shapes : list Shape.t)
  : string :=
  match shapes with
  | [] => oss
  | shape :: rest => write_shapes (write_shape oss i shape) (S i) rest
  end.

(** [std::string GeometryCalculator::getShapesInfo() const] *)
Definition getShapesInfo (self : GeometryCalculator.t) : string :=
  let oss := ("=== Geometry Calculator Results ===" ++ newline)%string in
  let oss :=
    (oss ++ "Total shapes: "
         ++ show_size_t (List.length (GeometryCalculator.shapes_ self))
         ++ newline ++ newline)%string in
  let oss := write_shapes oss 0 (GeometryCalculator.shapes_ self) in
  let oss := (oss ++ "Totals:" ++ newline)%string in
  let oss :=
    (oss ++ "  Total Area: "
         ++ show_double (GeometryCalculator.totalArea self)
         ++ newline)%string in
  (oss ++ "  Total Perimeter: "
       ++ show_double (GeometryCalculator.totalPerimeter self)
       ++ newline)%string.

End ShapesInfo.

(** * Vocabulary of the properties *)

(** The rational a finite double stands for (0 for the other values). *)
Definition to_Q (x : double) : Q :=
  match x with
  | S754_finite s m e =>
      ((if s then (-1) else 1) * inject_Z (Zpos m) * Qpower 2 e)%Q
  | _ => 0%Q
  end.

(** The value of a finite double counted in units of 2^-1074, the
    smallest positive double: an integer for every canonical double. *)
Definition units (x : double) : Z :=
  match x with
  | S754_finite s m e => (if s then -1 else 1) * (Zpos m * 2 ^ (e + 1074))
  | _ => 0
  end.

(** The number of binary digits of a mantissa. *)
Definition digits (m : positive) : Z := Zpos (digits2_pos m).

(** The state of the shifts of the rounding: after [j] shifts of [m] the
    record holds the quotient of [m] by [2^j], and its two flags are set
    only when non-zero bits were dropped. *)
Definition shifted (m : Z) (j : Z) (mrs : shr_record) : Prop :=
  (0 <= shr_m mrs)%Z /\
  (shr_m mrs * 2 ^ j <= m < (shr_m mrs + 1) * 2 ^ j)%Z /\
  (shr_r mrs || shr_s mrs = true -> shr_m mrs * 2 ^ j < m)%Z.

(** A machine double that is finite and positive. *)
Definition finite_positive (x : double) : Prop :=
  exists m e, x = S754_finite false m e /\ bounded prec emax m e = true.

(** The mantissa held by a shift record of the rounding is not
    negative. *)
Definition shr_nonneg (mrs : shr_record) : Prop := (0 <= shr_m mrs)%Z.

(** The step of the doubles around a positive value [v], counted in
    units of 2^-1074: values below 2^53 units are one unit apart, and the
    step doubles with every further binary digit. *)
Definition grid (v : Z) : Z := (2 ^ Z.max (Z.log2 v - 52) 0)%Z.

(** [f] is on the grid of [v] and not more than half a step below [v]. *)
Definition within_half (v f : Z) : Prop :=
  (grid v | f)%Z /\ (2 * (v - f) <= grid v)%Z.

(** The state of the shifts of the rounding, as to the bits dropped: the
    round bit is clear only below the half, and the sticky bit is clear
    only when nothing or exactly the half was dropped. *)
Definition dropped (m : Z) (j : Z) (mrs : shr_record) : Prop :=
  (0 <= m - shr_m mrs * 2 ^ j < 2 ^ j)%Z /\
  (shr_r mrs = false -> 2 * (m - shr_m mrs * 2 ^ j) < 2 ^ j)%Z /\
  (shr_s mrs = false ->
   m - shr_m mrs * 2 ^ j = 0 \/ 2 * (m - shr_m mrs * 2 ^ j) = 2 ^ j)%Z.

(** What the rounding of a positive value [v], counted in units of
    2^-1074, yields: plus infinity when it overflows, and otherwise a
    double on the grid of [v] that is not more than half a step below
    [v]. *)
Definition rounds_to (v : Z) (r : double) : Prop :=
  r = S754_infinity false \/
  exists m e,
    r = S754_finite false m e /\ bounded prec emax m e = true /\
    within_half v (Zpos m * 2 ^ (e + 1074))%Z.

(** The construction preconditions as the specification lists them. *)
Definition circle_violation (radius : double) : bool :=
  radius <= of_int 0.

Definition rectangle_violation (width height : double) : bool :=
  (width <= of_int 0) || (height <= of_int 0).

Definition triangle_violation (a b c : double) : bool :=
  (a <= of_int 0) || (b <= of_int 0) || (c <= of_int 0) ||
  (a + b <= c) || (b + c <= a) || (a + c <= b).

(** What the Triangle constructor tests: a side that is not positive, or
    the negation of [satisfiesTriangleInequality]. *)
Definition triangle_rejected (a b c : double) : bool :=
  (a <= of_int 0) || (b <= of_int 0) || (c <= of_int 0) ||
  negb ((a + b > c) && (b + c > a) && (a + c > b)).

(** A constructor obeys a violation test when it throws
    [InvalidParameter] exactly when the test holds and otherwise returns
    the instance that stores the parameters; it never does both. *)
Definition constructs {T : Type} (o : outcome T) (violated : bool) (obj : T)
  : Prop :=
  (InvalidParameter o <-> violated = true) /\
  (o = Returns obj <-> violated = false) /\
  (forall x, o = Returns x -> x = obj).

(** C1, as the claim words it for the Triangle: construction fails with
    [InvalidParameter] exactly when a side is [<= 0] or one of
    [a+b <= c], [b+c <= a], [a+c <= b] holds. *)
Definition triangle_claim (a b c : double) : Prop :=
  InvalidParameter (Triangle.Triangle a b c) <->
  triangle_violation a b c = true.

(** What a caller can observe of a shape through the [Shape] interface. *)
Definition observables (s : Shape.t)
  : double * double * string * bool :=
  (Shape.area s, Shape.perimeter s, Shape.name s, Shape.isValid s).

(** A call of a setter that fails and leaves the object, seen through
    [view], as it was. *)
Definition fails_atomically {S : Type} (view : S -> Shape.t)
           (m : method S unit) (self : S) : Prop :=
  InvalidParameter (fst (m self)) /\
  snd (m self) = self /\
  observables (view (snd (m self))) = observables (view self).

(** The sides of the triangle on which [area()] fails: [2^460] and twice
    [1.5 * 2^512]. *)
Definition needle_a : double := of_bits 0x10000000000000 408.
Definition needle_b : double := of_bits 0x18000000000000 460.

Definition needle : Triangle.t :=
  {| Triangle.side_a_ := needle_a; Triangle.side_b_ := needle_b;
     Triangle.side_c_ := needle_b |}.

(** Heron's radicand [s (s - a) (s - b) (s - c)], [s = (a + b + c) / 2],
    of the stored sides in exact rational arithmetic. *)
Definition exact_radicand (x : Triangle.t) : Q :=
  let a := to_Q (Triangle.side_a_ x) in
  let b := to_Q (Triangle.side_b_ x) in
  let c := to_Q (Triangle.side_c_ x) in
  let s := ((a + b + c) / 2)%Q in
  (s * (s - a) * (s - b) * (s - c))%Q.

(** Two sides are equal within the tolerance. *)
Definition within_epsilon (x y : double) : bool :=
  abs (x - y) < epsilon.

(** C5, as the claim words it: all three sides are equal within the
    tolerance when each of the three pairs is. *)
Definition all_sides_within_epsilon (x : Triangle.t) : bool :=
  within_epsilon (Triangle.side_a_ x) (Triangle.side_b_ x) &&
  within_epsilon (Triangle.side_b_ x) (Triangle.side_c_ x) &&
  within_epsilon (Triangle.side_a_ x) (Triangle.side_c_ x).

Definition some_sides_within_epsilon (x : Triangle.t) : bool :=
  within_epsilon (Triangle.side_a_ x) (Triangle.side_b_ x) ||
  within_epsilon (Triangle.side_b_ x) (Triangle.side_c_ x) ||
  within_epsilon (Triangle.side_a_ x) (Triangle.side_c_ x).

(** What [isEquilateral] tests: the pairs (a, b) and (b, c) only. *)
Definition chained_within_epsilon (x : Triangle.t) : bool :=
  within_epsilon (Triangle.side_a_ x) (Triangle.side_b_ x) &&
  within_epsilon (Triangle.side_b_ x) (Triangle.side_c_ x).

(** Sides [1], [1 + 3 * 2^-32] and [1 + 3 * 2^-31]: neighbours differ by
    about 7.0e-10, the first and the last by about 1.4e-9. *)
Definition drift_a : double := of_bits 0x10000000000000 (-52).
Definition drift_b : double := of_bits 0x10000000300000 (-52).
Definition drift_c : double := of_bits 0x10000000600000 (-52).

Definition drift : Triangle.t :=
  {| Triangle.side_a_ := drift_a; Triangle.side_b_ := drift_b;
     Triangle.side_c_ := drift_c |}.

(** The triangle with the given integer sides, as an object. *)
Definition tri (a b c : Z) : Triangle.t :=
  {| Triangle.side_a_ := of_int a; Triangle.side_b_ := of_int b;
     Triangle.side_c_ := of_int c |}.

(** The sum of a sequence of doubles taken in order, from the words of
    the specification: the empty sum is 0, and the sum of a sequence
    extended by [x] is the sum of the sequence plus [x]. *)
Definition sum_in_order (xs : list double) : double :=
  fold_right (fun x total => total + x) (of_int 0) (rev xs).

(** ** Vocabulary of the further properties *)

(** A double that is a number: not NaN and not an infinity. *)
Definition is_finite (x : double) : bool :=
  match x with
  | S754_finite _ _ _ | S754_zero _ => true
  | _ => false
  end.

(** A double that is zero, a positive number or plus infinity. *)
Definition is_nonneg (x : double) : bool :=
  match x with
  | S754_zero _ | S754_finite false _ _ | S754_infinity false => true
  | _ => false
  end.

(** The states of a calculator that a program reaches from a newly
    constructed one by calls of its two non-const member functions. *)
Inductive reachable : GeometryCalculator.t -> Prop :=
| reach_new : reachable GeometryCalculator.GeometryCalculator
| reach_addShape (shape : option Shape.t) (self : GeometryCalculator.t) :
    reachable self ->
    reachable (snd (GeometryCalculator.addShape shape self))
| reach_clear (self : GeometryCalculator.t) :
    reachable self -> reachable (snd (GeometryCalculator.clear self)).

(** Calling [addShape] on each pointer of a list in turn. *)
Definition addShapes (shapes : list (option Shape.t))
           (self : GeometryCalculator.t) : GeometryCalculator.t :=
  fold_left (fun calc shape => snd (GeometryCalculator.addShape shape calc))
            shapes self.

(** The shapes of a list of pointers that [addShape] keeps. *)
Definition accepted (shapes : list (option Shape.t)) : list Shape.t :=
  flat_map (fun shape =>
              match shape with
              | Some s => if Shape.isValid s then [s] else []
              | None => []
              end) shapes.

(** A string occurs in another one. *)
Definition occurs_in (needle hay : string) : Prop :=
  exists pre post, hay = (pre ++ needle ++ post)%string.

(** The three lines of the report for a shape at index [i]. *)
Definition shape_lines (show_double : double -> string) (i : nat)
           (shape : Shape.t) : string :=
  ("Shape " ++ show_size_t (i + 1) ++ ": " ++ Shape.name shape ++ newline
    ++ "  Area: " ++ show_double (Shape.area shape) ++ newline
    ++ "  Perimeter: " ++ show_double (Shape.perimeter shape)
    ++ newline ++ newline)%string.

(** Two runs of a constructor end the same way: both return, or both
    throw the same exception. *)
Definition same_outcome {A : Type} (o o' : outcome A) : Prop :=
  match o, o' with
  | Returns _, Returns _ => True
  | Throws e, Throws e' => e = e'
  | _, _ => False
  end.

(** The triangle object with the given members. *)
Definition with_sides (a b c : double) : Triangle.t :=
  {| Triangle.side_a_ := a; Triangle.side_b_ := b; Triangle.side_c_ := c |}.

(** The literals [0.1], [0.2] and [0.3]: [0x1.999999999999ap-4],
    [0x1.999999999999ap-3] and [0x1.3333333333333p-2]. *)
Definition lit_0_1 : double := of_bits 0x1999999999999a (-56).
Definition lit_0_2 : double := of_bits 0x1999999999999a (-55).
Definition lit_0_3 : double := of_bits 0x13333333333333 (-54).

(** * Properties *)

(** ** The constants and the comparisons with zero *)

(** [M_PI] is within half a unit in the last place (2^-52) of the decimal
    literal of [<cmath>], and [epsilon] within half a unit in the last
    place (2^-83) of 10^-9: both are the correctly rounded literals. *)
Lemma M_PI_rounds_literal :
  is_double M_PI = true /\
  (Qabs (to_Q M_PI - (314159265358979323846 # 100000000000000000000))
   <= Qpower 2 (-52))%Q.
Proof.
  split; [reflexivity|].
  unfold Qle; vm_compute; discriminate.
Qed.

Lemma epsilon_rounds_literal :
  is_double epsilon = true /\
  (Qabs (to_Q epsilon - (1 # 1000000000)) <= Qpower 2 (-83))%Q.
Proof.
  split; [reflexivity|].
  unfold Qle; vm_compute; discriminate.
Qed.

Lemma of_int_0 : of_int 0 = S754_zero false.
Proof. reflexivity. Qed.

(** Away from NaN the two tests against zero used by the constructors
    ([x <= 0]) and by [isValid] ([x > 0]) are complementary. *)
Lemma gtb_zero_negb_leb (x : double) :
  is_nan x = false -> (x > of_int 0) = negb (x <= of_int 0).
Proof.
  rewrite of_int_0.
  destruct x as [s|s| |s m e]; try discriminate; intros _;
    destruct s; reflexivity.
Qed.

(** With NaN both tests are false. *)
Lemma nan_compares_false (y : double) :
  (NaN <= y) = false /\ (y <= NaN) = false /\
  (NaN > y) = false /\ (y > NaN) = false.
Proof. destruct y as [[]|[]| |[] m e]; repeat split; reflexivity. Qed.

Lemma gtb_not_nan (x y : double) :
  (x > y) = true -> is_nan x = false /\ is_nan y = false.
Proof.
  destruct x as [?|?| |? ? ?]; destruct y as [?|?| |? ? ?];
    try discriminate; split; reflexivity.
Qed.

Lemma add_not_nan (x y : double) :
  is_nan (x + y) = false -> is_nan x = false /\ is_nan y = false.
Proof.
  destruct x as [?|?| |? ? ?]; destruct y as [?|?| |? ? ?];
    try discriminate; split; reflexivity.
Qed.

(** The order of two doubles does not depend on the side it is read
    from. *)
Lemma SFcompare_antisym (x y : double) :
  SFcompare y x = option_map CompOpp (SFcompare x y).
Proof.
  destruct x as [sx|sx| |sx mx ex]; destruct y as [sy|sy| |sy my ey];
    try reflexivity; cbn - [Z.compare Pos.compare_cont];
    try (destruct sx; reflexivity); try (destruct sy; reflexivity);
    try (destruct sx, sy; reflexivity).
  rewrite (Z.compare_antisym ex ey).
  pose proof (Pos.compare_cont_antisym mx my Eq) as M; cbn [CompOpp] in M.
  rewrite <- M.
  destruct sx, sy; try reflexivity;
    destruct (ex ?= ey)%Z; cbn [CompOpp option_map]; reflexivity.
Qed.

(** Away from NaN, [x > y] is the negation of [x <= y]. *)
Lemma gtb_negb_leb (x y : double) :
  is_nan x = false -> is_nan y = false -> (x > y) = negb (x <= y).
Proof.
  intros Nx Ny; unfold gtb, leb, SFltb, SFleb.
  rewrite (SFcompare_antisym x y).
  destruct (SFcompare x y) as [[]|] eqn:E; try reflexivity.
  destruct x as [?|?| |? ? ?]; try discriminate;
    destruct y as [?|?| |? ? ?]; discriminate.
Qed.

(** Rounding never produces NaN: the mantissa stays non-negative along
    the shifts, so the last case of [binary_round_aux] is not reached. *)
Lemma shr_1_nonneg (mrs : shr_record) :
  shr_nonneg mrs -> shr_nonneg (shr_1 mrs).
Proof.
  destruct mrs as [m r s]; unfold shr_nonneg; cbn.
  destruct m as [|[p|p|]|p]; cbn; lia.
Qed.

Lemma iter_pos_invariant {A : Type} (P : A -> Prop) (f : A -> A) :
  (forall x, P x -> P (f x)) ->
  forall n x, P x -> P (iter_pos f n x).
Proof.
  intros Hf n; induction n as [n IH|n IH|]; intros x Hx; cbn; auto.
Qed.

Lemma shr_fexp_nonneg (m e : Z) (l : location) :
  (0 <= m)%Z -> shr_nonneg (fst (shr_fexp prec emax m e l)).
Proof.
  intros H; unfold shr_fexp, shr.
  assert (H0 : shr_nonneg (shr_record_of_loc m l))
    by (unfold shr_nonneg; destruct l as [|[]]; exact H).
  destruct (_ - e)%Z; cbn [fst]; auto.
  now apply iter_pos_invariant; [apply shr_1_nonneg|].
Qed.

Lemma round_nearest_even_nonneg (m : Z) (l : location) :
  (0 <= m)%Z -> (0 <= round_nearest_even m l)%Z.
Proof.
  intros H; destruct l as [|[]]; cbn; try lia.
  destruct (Z.even m); lia.
Qed.

Lemma binary_round_aux_not_nan (s : bool) (m e : Z) (l : location) :
  (0 <= m)%Z -> is_nan (binary_round_aux prec emax s m e l) = false.
Proof.
  intros H; unfold binary_round_aux.
  pose proof (shr_fexp_nonneg m e l H) as H1.
  destruct (shr_fexp prec emax m e l) as [mrs' e']; cbn [fst] in H1.
  pose proof (shr_fexp_nonneg _ e' loc_Exact
                (round_nearest_even_nonneg _ (loc_of_shr_record mrs') H1))
    as H2.
  destruct (shr_fexp prec emax _ e' loc_Exact) as [mrs'' e''];
    cbn [fst] in H2.
  unfold shr_nonneg in H2.
  destruct (shr_m mrs'') as [|p|p]; try reflexivity; [|lia].
  destruct (e'' <=? emax - prec)%Z; reflexivity.
Qed.

Lemma binary_normalize_not_nan (m e : Z) (szero : bool) :
  is_nan (binary_normalize prec emax m e szero) = false.
Proof.
  destruct m as [|m|m]; cbn [binary_normalize]; try reflexivity;
    unfold binary_round; destruct (shl_align m e _) as [mz ez];
    apply binary_round_aux_not_nan; lia.
Qed.

(** The sum of two positive doubles is not NaN. *)
Lemma add_positive_not_nan (x y : double) :
  (x > of_int 0) = true -> (y > of_int 0) = true -> is_nan (x + y) = false.
Proof.
  rewrite of_int_0.
  destruct x as [sx|sx| |sx mx ex]; try discriminate;
    destruct y as [sy|sy| |sy my ey]; try discriminate;
    destruct sx; try discriminate; destruct sy; try discriminate;
    intros _ _; try reflexivity.
  apply binary_normalize_not_nan.
Qed.

(** ** Rounding to nearest does not step over a double *)

Lemma digits_pos (m : positive) : (0 < digits m)%Z.
Proof. unfold digits; lia. Qed.

(** A mantissa of [d] digits lies between [2^(d-1)] and [2^d], and this
    determines [d]. *)
Lemma digits_bounds (m : positive) :
  (2 ^ (digits m - 1) <= Zpos m < 2 ^ digits m)%Z.
Proof.
  unfold digits; induction m as [m IH|m IH|]; cbn [digits2_pos].
  - rewrite Pos2Z.inj_succ.
    replace (Z.succ (Z.pos (digits2_pos m)) - 1)%Z
      with (Z.succ (Z.pos (digits2_pos m) - 1))%Z by lia.
    rewrite !Z.pow_succ_r by lia. lia.
  - rewrite Pos2Z.inj_succ.
    replace (Z.succ (Z.pos (digits2_pos m)) - 1)%Z
      with (Z.succ (Z.pos (digits2_pos m) - 1))%Z by lia.
    rewrite !Z.pow_succ_r by lia. lia.
  - cbn; lia.
Qed.

Lemma digits_unique (m : positive) (n : Z) :
  (2 ^ (n - 1) <= Zpos m < 2 ^ n)%Z -> digits m = n.
Proof.
  intros [L U]. pose proof (digits_bounds m) as [L' U'].
  pose proof (digits_pos m) as P.
  assert (0 < n)%Z.
  { destruct (Z.ltb_spec 0 n); auto.
    assert (2 ^ n <= 1)%Z.
    { destruct (Z.eq_dec n 0) as [->|]; [cbn; lia|].
      rewrite Z.pow_neg_r by lia; lia. }
    lia. }
  destruct (Z.lt_trichotomy (digits m) n) as [H1|[H1|H1]]; auto; exfalso.
  - assert (2 ^ digits m <= 2 ^ (n - 1))%Z by (apply Z.pow_le_mono_r; lia).
    lia.
  - assert (2 ^ n <= 2 ^ (digits m - 1))%Z by (apply Z.pow_le_mono_r; lia).
    lia.
Qed.

Lemma pow2_pos (n : Z) : (0 <= n -> 0 < 2 ^ n)%Z.
Proof. intros; apply Z.pow_pos_nonneg; lia. Qed.

(** The exponent of the doubles of magnitude [n]: the mantissa has 53
    digits, unless the exponent would go below -1074 (subnormals). *)
Lemma fexp_eq (n : Z) : fexp prec emax n = Z.max (n - 53) (-1074).
Proof. reflexivity. Qed.

(** What [is_double] says of a finite double. *)
Lemma bounded_canonical (m : positive) (e : Z) :
  bounded prec emax m e = true ->
  fexp prec emax (digits m + e) = e /\ (e <= 971)%Z.
Proof.
  unfold bounded, canonical_mantissa; intros H.
  apply andb_prop in H as [H1 H2].
  apply Z.eqb_eq in H1; apply Z.leb_le in H2.
  split; [exact H1|exact H2].
Qed.

Lemma canonical_facts (m : positive) (e : Z) :
  fexp prec emax (digits m + e) = e ->
  (-1074 <= e)%Z /\ (digits m <= 53)%Z /\ ((-1074 < e)%Z -> digits m = 53%Z).
Proof. rewrite fexp_eq; pose proof (digits_pos m); lia. Qed.

(** The value of a finite double between two powers of two. *)
Lemma units_lt_pow (m : positive) (e : Z) :
  (-1074 <= e)%Z ->
  (2 ^ (digits m - 1 + (e + 1074)) <= Zpos m * 2 ^ (e + 1074)
   < 2 ^ (digits m + (e + 1074)))%Z.
Proof.
  intros He. pose proof (digits_bounds m) as [L U].
  pose proof (digits_pos m) as P.
  rewrite (Z.pow_add_r 2 (digits m - 1) (e + 1074)) by lia.
  rewrite (Z.pow_add_r 2 (digits m) (e + 1074)) by lia.
  pose proof (pow2_pos (e + 1074) ltac:(lia)) as Q.
  split.
  - apply Z.mul_le_mono_nonneg_r; lia.
  - apply Z.mul_lt_mono_pos_r; lia.
Qed.

(** Canonical positive doubles are ordered as their values. *)
Lemma SFltb_units (mc mr : positive) (ec er : Z) :
  fexp prec emax (digits mc + ec) = ec ->
  fexp prec emax (digits mr + er) = er ->
  SFltb (S754_finite false mc ec) (S754_finite false mr er) = true ->
  (Zpos mc * 2 ^ (ec + 1074) < Zpos mr * 2 ^ (er + 1074))%Z.
Proof.
  intros Cc Cr; unfold SFltb, SFcompare.
  destruct (canonical_facts _ _ Cc) as (Ec & Dc & _).
  destruct (canonical_facts _ _ Cr) as (Er & Dr & Nr).
  destruct (Z.compare_spec ec er) as [->|L|G]; try discriminate.
  - intros H.
    assert (Pos.compare_cont Eq mc mr = Lt)
      by (destruct (Pos.compare_cont Eq mc mr); congruence).
    assert (mc < mr)%positive by (apply Pos.compare_lt_iff; assumption).
    apply Z.mul_lt_mono_pos_r; [apply pow2_pos|]; lia.
  - intros _.
    pose proof (units_lt_pow mc ec Ec) as [_ U].
    pose proof (units_lt_pow mr er Er) as [L' _].
    rewrite (Nr ltac:(lia)) in L'.
    assert (2 ^ (digits mc + (ec + 1074)) <= 2 ^ (53 - 1 + (er + 1074)))%Z
      by (apply Z.pow_le_mono_r; lia).
    lia.
Qed.

(** Shifting a mantissa left multiplies it by a power of two. *)
Lemma iter_xO (m d : positive) :
  Zpos (Pos.iter xO m d) = (Zpos m * 2 ^ Zpos d)%Z.
Proof.
  induction d as [|d IH] using Pos.peano_ind.
  - cbn; lia.
  - rewrite Pos.iter_succ, Pos2Z.inj_succ, Z.pow_succ_r by lia.
    rewrite Pos2Z.inj_xO, IH; lia.
Qed.

(** The shifts to the right keep the invariant [shifted]. *)
Lemma shifted_0 (m : Z) : (0 <= m)%Z ->
  shifted m 0 {| shr_m := m; shr_r := false; shr_s := false |}.
Proof. unfold shifted; cbn; intros; repeat split; try lia; discriminate. Qed.

Lemma shifted_shr_1 (m j : Z) (mrs : shr_record) :
  (0 <= j)%Z -> shifted m j mrs -> shifted m (j + 1) (shr_1 mrs).
Proof.
  intros Hj (N & [L U] & F).
  pose proof (pow2_pos j Hj) as P.
  destruct mrs as [q r s]; cbn [shr_m shr_r shr_s] in *.
  unfold shifted.
  rewrite Z.pow_add_r, Z.pow_1_r by lia.
  destruct q as [|[p|p|]|p]; cbn [shr_1 shr_m shr_r shr_s orb]; try lia;
    (repeat split; try nia; intros H; try apply F in H; nia).
Qed.

Lemma iter_pos_shifted (m : Z) (n : positive) :
  forall j mrs, (0 <= j)%Z -> shifted m j mrs ->
                shifted m (j + Zpos n) (iter_pos shr_1 n mrs).
Proof.
  induction n as [n IH|n IH|]; intros j mrs Hj H; cbn [iter_pos].
  - replace (j + Z.pos n~1)%Z with (j + 1 + Zpos n + Zpos n)%Z by lia.
    apply IH; [lia|]. apply IH; [lia|]. now apply shifted_shr_1.
  - replace (j + Z.pos n~0)%Z with (j + Zpos n + Zpos n)%Z by lia.
    apply IH; [lia|]. now apply IH.
  - now apply shifted_shr_1.
Qed.

Lemma digits_mono (p q : positive) :
  (Zpos p <= Zpos q)%Z -> (digits p <= digits q)%Z.
Proof.
  intros H. pose proof (digits_bounds p) as [Lp _].
  pose proof (digits_bounds q) as [_ Uq].
  destruct (Z.le_gt_cases (digits p) (digits q)) as [|G]; auto.
  assert (2 ^ digits q <= 2 ^ (digits p - 1))%Z
    by (apply Z.pow_le_mono_r; lia).
  lia.
Qed.

(** The quotient left by [k] shifts, when fewer bits are dropped than the
    mantissa has. *)
Lemma shifted_quotient (m : positive) (k : Z) (mrs : shr_record) :
  (0 <= k < digits m)%Z -> shifted (Zpos m) k mrs ->
  exists q, shr_m mrs = Zpos q /\ digits q = (digits m - k)%Z.
Proof.
  intros [K0 K1] (N & [L U] & _).
  pose proof (digits_bounds m) as [Lm Um].
  pose proof (pow2_pos k K0) as P.
  assert (E1 : (2 ^ (digits m - 1) = 2 ^ (digits m - k - 1) * 2 ^ k)%Z)
    by (rewrite <- Z.pow_add_r by lia; f_equal; lia).
  assert (E2 : (2 ^ digits m = 2 ^ (digits m - k) * 2 ^ k)%Z)
    by (rewrite <- Z.pow_add_r by lia; f_equal; lia).
  pose proof (pow2_pos (digits m - k - 1) ltac:(lia)) as P1.
  assert (Q1 : (2 ^ (digits m - k - 1) <= shr_m mrs)%Z) by nia.
  assert (Q2 : (shr_m mrs < 2 ^ (digits m - k))%Z) by nia.
  destruct (shr_m mrs) as [|q|q] eqn:E; try lia.
  exists q; split; [reflexivity|].
  apply digits_unique; split; [exact Q1|exact Q2].
Qed.

(** [shr_fexp] on an exact mantissa: it drops the bits below the
    exponent of the magnitude. *)
Lemma shr_fexp_exact (m : positive) (e : Z) :
  (e <= fexp prec emax (digits m + e))%Z ->
  shifted (Zpos m) (fexp prec emax (digits m + e) - e)
          (fst (shr_fexp prec emax (Zpos m) e loc_Exact)) /\
  snd (shr_fexp prec emax (Zpos m) e loc_Exact) =
    fexp prec emax (digits m + e).
Proof.
  intros H; unfold shr_fexp, shr; cbn [Zdigits2 shr_record_of_loc].
  fold (digits m).
  destruct (fexp prec emax (digits m + e) - e)%Z as [|k|k] eqn:K;
    cbn [fst snd]; try lia.
  - split; [apply shifted_0|]; lia.
  - split; [|lia].
    apply (iter_pos_shifted (Zpos m) k 0); [lia|apply shifted_0; lia].
Qed.

(** Rounding to nearest even keeps the quotient or, only if bits were
    dropped, adds one to it. *)
Lemma round_nearest_even_cases (mrs : shr_record) :
  round_nearest_even (shr_m mrs) (loc_of_shr_record mrs) = shr_m mrs \/
  (round_nearest_even (shr_m mrs) (loc_of_shr_record mrs) = (shr_m mrs + 1)%Z
   /\ shr_r mrs || shr_s mrs = true).
Proof.
  destruct mrs as [q [] []]; cbn; auto.
  destruct (Z.even q); auto.
Qed.

(** Rounding to nearest does not step over a double: the rounded value of
    [mz * 2^ez] is not above a canonical double that is not below
    [mz * 2^ez]. *)
Lemma binary_round_aux_le (mz mc : positive) (ez ec : Z) :
  (-1074 <= ez)%Z ->
  (ez <= fexp prec emax (digits mz + ez))%Z ->
  bounded prec emax mc ec = true ->
  (Zpos mz * 2 ^ (ez + 1074) <= Zpos mc * 2 ^ (ec + 1074))%Z ->
  SFltb (S754_finite false mc ec)
        (binary_round_aux prec emax false (Zpos mz) ez loc_Exact) = false.
Proof.
  intros Ez Hk Bc Le.
  destruct (bounded_canonical _ _ Bc) as [Cc Ec].
  destruct (canonical_facts _ _ Cc) as (Ec0 & Dc & _).
  pose proof (digits_pos mz) as Pz.
  unfold binary_round_aux.
  destruct (shr_fexp_exact mz ez Hk) as [S1 E1]; revert S1 E1.
  destruct (shr_fexp prec emax (Zpos mz) ez loc_Exact) as [mrs' e'];
    cbn [fst snd]; intros S1 E1.
  remember (fexp prec emax (digits mz + ez) - ez)%Z as k eqn:Dk.
  assert (K : (0 <= k < digits mz)%Z)
    by (rewrite fexp_eq in *; lia).
  destruct (shifted_quotient mz k mrs' K S1) as (q & Eq & Dq).
  destruct S1 as (_ & [L1 U1] & F1); rewrite Eq in L1, U1, F1.
  assert (E'k : e' = (ez + k)%Z) by lia.
  (* the value rounded to nearest is below the bound *)
  assert (R : exists qr,
             round_nearest_even (shr_m mrs') (loc_of_shr_record mrs')
             = Zpos qr /\
             (Zpos q <= Zpos qr)%Z /\
             (Zpos qr * 2 ^ (e' + 1074) <= Zpos mc * 2 ^ (ec + 1074))%Z).
  { pose proof (pow2_pos k ltac:(lia)) as Pk.
    pose proof (pow2_pos (ez + 1074) ltac:(lia)) as Pe.
    assert (Ee : (2 ^ (e' + 1074) = 2 ^ k * 2 ^ (ez + 1074))%Z)
      by (rewrite <- Z.pow_add_r by lia; f_equal; lia).
    destruct (Z.lt_ge_cases ec e') as [Lt|Ge].
    - (* a canonical double with a smaller exponent is below the value *)
      exfalso.
      assert (digits mc + ec < digits mz + ez)%Z
        by (rewrite fexp_eq in Cc, E1; lia).
      pose proof (units_lt_pow mc ec Ec0) as [_ Uc].
      pose proof (units_lt_pow mz ez Ez) as [Lz _].
      assert (2 ^ (digits mc + (ec + 1074))
              <= 2 ^ (digits mz - 1 + (ez + 1074)))%Z
        by (apply Z.pow_le_mono_r; lia).
      lia.
    - (* otherwise it is a multiple of the unit of the rounded value *)
      set (N := (Zpos mc * 2 ^ (ec - e'))%Z).
      assert (EN : (Zpos mc * 2 ^ (ec + 1074) = N * 2 ^ (e' + 1074))%Z).
      { unfold N; rewrite <- Z.mul_assoc, <- Z.pow_add_r by lia.
        do 2 f_equal; lia. }
      assert (HN : (Zpos mz <= N * 2 ^ k)%Z).
      { rewrite EN, Ee in Le.
        apply (Z.mul_le_mono_pos_r _ _ (2 ^ (ez + 1074))); [exact Pe|].
        lia. }
      clearbody N.
      pose proof (pow2_pos (e' + 1074) ltac:(lia)) as Pe'.
      destruct (round_nearest_even_cases mrs') as [Er|[Er Fl]];
        rewrite Er, Eq.
      + exists q; repeat split; [lia|].
        rewrite EN; apply Z.mul_le_mono_nonneg_r; [lia|].
        apply (Z.mul_le_mono_pos_r _ _ (2 ^ k)); [exact Pk|].
        exact (Z.le_trans _ _ _ L1 HN).
      + exists (q + 1)%positive; repeat split; [lia|].
        apply F1 in Fl.
        rewrite EN; apply Z.mul_le_mono_nonneg_r; [lia|].
        assert (Zpos q < N)%Z
          by (apply (Z.mul_lt_mono_pos_r (2 ^ k)); [exact Pk|];
              exact (Z.lt_le_trans _ _ _ Fl HN)).
        lia. }
  destruct R as (qr & -> & Qr & Br).
  (* the second shift renormalises *)
  assert (Cq : fexp prec emax (digits q + e') = e')
    by (rewrite E1; f_equal; lia).
  assert (E'0 : (-1074 <= e')%Z) by lia.
  assert (Hk2 : (e' <= fexp prec emax (digits qr + e'))%Z).
  { pose proof (digits_mono q qr Qr). rewrite fexp_eq in *; lia. }
  destruct (shr_fexp_exact qr e' Hk2) as [S2 E2]; revert S2 E2.
  destruct (shr_fexp prec emax (Zpos qr) e' loc_Exact) as [mrs'' e''];
    cbn [fst snd]; intros S2 E2.
  remember (fexp prec emax (digits qr + e') - e')%Z as k2 eqn:Dk2.
  pose proof (digits_pos qr) as Pqr.
  assert (K2 : (0 <= k2 < digits qr)%Z)
    by (rewrite fexp_eq in *; lia).
  destruct (shifted_quotient qr k2 mrs'' K2 S2) as (q2 & Eq2 & Dq2).
  destruct S2 as (_ & [L2 _] & _); rewrite Eq2 in L2.
  rewrite Eq2.
  assert (C2 : fexp prec emax (digits q2 + e'') = e'')
    by (rewrite E2; f_equal; lia).
  assert (B2 : (Zpos q2 * 2 ^ (e'' + 1074) <= Zpos mc * 2 ^ (ec + 1074))%Z).
  { assert (Ee : (2 ^ (e'' + 1074) = 2 ^ k2 * 2 ^ (e' + 1074))%Z)
      by (rewrite <- Z.pow_add_r by lia; f_equal; lia).
    pose proof (pow2_pos (e' + 1074) ltac:(lia)) as Pe.
    rewrite Ee. nia. }
  destruct (Z.leb_spec e'' (emax - prec)) as [Fin|Inf].
  - destruct (SFltb _ _) eqn:Lt; [exfalso|reflexivity].
    apply (SFltb_units mc q2 ec e'' Cc C2) in Lt. lia.
  - exfalso.
    destruct (canonical_facts _ _ C2) as (E20 & _ & N2).
    unfold emax, prec in Inf.
    pose proof (units_lt_pow q2 e'' E20) as [Lq2 _].
    rewrite (N2 ltac:(lia)) in Lq2.
    pose proof (units_lt_pow mc ec Ec0) as [_ Uc].
    assert (2 ^ (digits mc + (ec + 1074)) <= 2 ^ (53 - 1 + (e'' + 1074)))%Z
      by (apply Z.pow_le_mono_r; lia).
    lia.
Qed.

(** [binary_round] first aligns the mantissa, which changes neither the
    value nor the magnitude. *)
Lemma digits_shift (m d : positive) :
  digits (Pos.iter xO m d) = (digits m + Zpos d)%Z.
Proof.
  apply digits_unique. rewrite iter_xO.
  pose proof (digits_bounds m) as [L U].
  pose proof (digits_pos m) as P.
  pose proof (pow2_pos (Zpos d) ltac:(lia)) as Pd.
  replace (digits m + Zpos d - 1)%Z with (digits m - 1 + Zpos d)%Z by lia.
  rewrite !Z.pow_add_r by lia.
  split.
  - apply Z.mul_le_mono_nonneg_r; lia.
  - apply Z.mul_lt_mono_pos_r; lia.
Qed.

(** Aligning a mantissa to a smaller exponent keeps the value. *)
Lemma shl_align_value (m : positive) (e e' : Z) :
  (-1074 <= e')%Z -> (e' <= e)%Z ->
  (Zpos (fst (shl_align m e e')) * 2 ^ (e' + 1074)
   = Zpos m * 2 ^ (e + 1074))%Z.
Proof.
  intros H0 H; unfold shl_align.
  destruct (e' - e)%Z as [|d|d] eqn:D; cbn [fst]; try lia.
  - replace e' with e by lia; reflexivity.
  - rewrite iter_xO, <- Z.mul_assoc, <- Z.pow_add_r by lia.
    do 2 f_equal; lia.
Qed.

Lemma binary_round_le (m mc : positive) (e ec : Z) :
  (-1074 <= e)%Z ->
  bounded prec emax mc ec = true ->
  (Zpos m * 2 ^ (e + 1074) <= Zpos mc * 2 ^ (ec + 1074))%Z ->
  SFltb (S754_finite false mc ec) (binary_round prec emax false m e) = false.
Proof.
  intros He Bc Le; unfold binary_round.
  fold (digits m).
  assert (F0 : (-1074 <= fexp prec emax (digits m + e))%Z)
    by (rewrite fexp_eq; lia).
  unfold shl_align.
  destruct (fexp prec emax (digits m + e) - e)%Z as [|d|d] eqn:D.
  - apply binary_round_aux_le; auto; lia.
  - apply binary_round_aux_le; auto; lia.
  - apply binary_round_aux_le; auto; try lia.
    + rewrite digits_shift.
      replace (digits m + Zpos d + fexp prec emax (digits m + e))%Z
        with (digits m + e)%Z by lia.
      lia.
    + rewrite iter_xO, <- Z.mul_assoc, <- Z.pow_add_r by lia.
      replace (Zpos d + (fexp prec emax (digits m + e) + 1074))%Z
        with (e + 1074)%Z by lia.
      exact Le.
Qed.

(** If the rounded sum of two positive doubles is above a third one, so
    is the exact sum. *)
Lemma add_gt_exact (a b c : double) :
  finite_positive a -> finite_positive b -> finite_positive c ->
  SFltb c (SFadd prec emax a b) = true ->
  (units c < units a + units b)%Z.
Proof.
  intros (ma & ea & -> & Ba) (mb & eb & -> & Bb) (mc & ec & -> & Bc) H.
  destruct (bounded_canonical _ _ Ba) as [Ca _].
  destruct (bounded_canonical _ _ Bb) as [Cb _].
  destruct (canonical_facts _ _ Ca) as (Ea & _).
  destruct (canonical_facts _ _ Cb) as (Eb & _).
  cbn [units]; rewrite !Z.mul_1_l.
  destruct (Z.lt_ge_cases (Zpos mc * 2 ^ (ec + 1074))
              (Zpos ma * 2 ^ (ea + 1074) + Zpos mb * 2 ^ (eb + 1074)))
    as [|Ge]; [assumption|exfalso].
  cbn [SFadd cond_Zopp] in H.
  rewrite <- (shl_align_value ma ea (Z.min ea eb)) in Ge by lia.
  rewrite <- (shl_align_value mb eb (Z.min ea eb)) in Ge by lia.
  rewrite <- Z.mul_add_distr_r in Ge.
  rewrite <- Pos2Z.inj_add in Ge, H.
  cbn [binary_normalize] in H.
  rewrite (binary_round_le _ mc (Z.min ea eb) ec) in H;
    [discriminate| lia | exact Bc | exact Ge].
Qed.

(** ** Exact values *)

(** The rational value of a finite positive double is its number of
    units times 2^-1074. *)
Lemma to_Q_units (x : double) :
  finite_positive x ->
  (to_Q x * Qpower 2 1074 == inject_Z (units x))%Q.
Proof.
  intros (m & e & -> & B).
  destruct (bounded_canonical _ _ B) as [C _].
  destruct (canonical_facts _ _ C) as (E & _).
  cbn [to_Q units].
  rewrite Z.mul_1_l, inject_Z_mult, Zpower_Qpower by lia.
  rewrite Qpower_plus by discriminate.
  change (inject_Z 2) with 2%Q. ring.
Qed.

Lemma Qpower_2_pos : (0 < Qpower 2 1074)%Q.
Proof. apply Qpower_0_lt; reflexivity. Qed.

Lemma to_Q_pos (x : double) : finite_positive x -> (0 < to_Q x)%Q.
Proof.
  intros F. pose proof (to_Q_units x F) as H.
  destruct F as (m & e & -> & B).
  destruct (bounded_canonical _ _ B) as [C _].
  destruct (canonical_facts _ _ C) as (E & _).
  assert (0 < units (S754_finite false m e))%Z.
  { cbn [units]. pose proof (pow2_pos (e + 1074) ltac:(lia)). nia. }
  apply (Qmult_lt_r _ _ (Qpower 2 1074) Qpower_2_pos).
  rewrite H, Qmult_0_l. change 0%Q with (inject_Z 0).
  now rewrite <- Zlt_Qlt.
Qed.

Lemma to_Q_lt_add (x y z : double) :
  finite_positive x -> finite_positive y -> finite_positive z ->
  (units x < units y + units z)%Z -> (to_Q x < to_Q y + to_Q z)%Q.
Proof.
  intros Fx Fy Fz H.
  apply (Qmult_lt_r _ _ (Qpower 2 1074) Qpower_2_pos).
  rewrite Qmult_plus_distr_l, !to_Q_units by assumption.
  rewrite <- inject_Z_plus. now rewrite <- Zlt_Qlt.
Qed.

(** Heron's radicand of three positive numbers that satisfy the strict
    triangle inequality is positive. *)
Lemma heron_positive (a b c : Q) :
  (0 < a -> 0 < b -> 0 < c -> c < a + b -> a < b + c -> b < a + c ->
   let s := (a + b + c) / 2 in
   0 < s * (s - a) * (s - b) * (s - c))%Q.
Proof.
  intros Ha Hb Hc H1 H2 H3 s.
  unfold Qdiv in s; change (/ 2)%Q with (1 # 2)%Q in s.
  assert (0 < s)%Q by (unfold s; lra).
  assert (0 < s - a)%Q by (unfold s; lra).
  assert (0 < s - b)%Q by (unfold s; lra).
  assert (0 < s - c)%Q by (unfold s; lra).
  clearbody s; repeat apply Qmult_lt_0_compat; assumption.
Qed.

(** ** Construction *)

Lemma InvalidParameter_Throws {A : Type} (what : string) :
  InvalidParameter (A := A) (Throws (invalid_argument what)).
Proof. exists what; reflexivity. Qed.

Lemma InvalidParameter_Returns {A : Type} (a : A) :
  ~ InvalidParameter (Returns a).
Proof. intros [what H]; discriminate H. Qed.

Create HintDb shapes.
#[local] Hint Resolve InvalidParameter_Throws : shapes.

Lemma constructs_if {T : Type} (violated : bool) (what : string) (obj : T) :
  constructs (if violated then Throws (invalid_argument what) else Returns obj)
             violated obj.
Proof.
  destruct violated; repeat split; auto with shapes; try discriminate.
  - intros H; now apply InvalidParameter_Returns in H.
  - intros x H; now injection H.
Qed.

Lemma Triangle_ctor_unfold (a b c : double) :
  Triangle.Triangle a b c =
  if triangle_rejected a b c
  then Throws (invalid_argument
                 (if (a <= of_int 0) || (b <= of_int 0) || (c <= of_int 0)
                  then "Triangle sides must be positive"
                  else "Triangle inequality not satisfied"))
  else Returns {| Triangle.side_a_ := a; Triangle.side_b_ := b;
                  Triangle.side_c_ := c |}.
Proof.
  unfold Triangle.Triangle, triangle_rejected,
    Triangle.satisfiesTriangleInequality;
    cbn [Triangle.side_a_ Triangle.side_b_ Triangle.side_c_].
  destruct ((a <= of_int 0) || (b <= of_int 0) || (c <= of_int 0));
    cbn [orb]; [reflexivity|].
  destruct ((a + b > c) && (b + c > a) && (a + c > b)); reflexivity.
Qed.

(** For sides that are not NaN the test of the constructor is the
    condition of the specification; a NaN side is always rejected. *)
Lemma triangle_rejected_violation (a b c : double) :
  is_nan a = false -> is_nan b = false -> is_nan c = false ->
  triangle_rejected a b c = triangle_violation a b c.
Proof.
  intros Na Nb Nc; unfold triangle_rejected, triangle_violation.
  pose proof (gtb_zero_negb_leb a Na) as Pa.
  pose proof (gtb_zero_negb_leb b Nb) as Pb.
  pose proof (gtb_zero_negb_leb c Nc) as Pc.
  destruct (a <= of_int 0); [reflexivity|].
  destruct (b <= of_int 0); [reflexivity|].
  destruct (c <= of_int 0); [reflexivity|]; cbn [orb negb] in *.
  rewrite !gtb_negb_leb by (auto using add_positive_not_nan).
  destruct (a + b <= c), (b + c <= a), (a + c <= b); reflexivity.
Qed.

Lemma triangle_rejected_nan (a b c : double) :
  is_nan a || is_nan b || is_nan c = true -> triangle_rejected a b c = true.
Proof.
  unfold triangle_rejected; intros N.
  destruct ((a <= of_int 0) || (b <= of_int 0) || (c <= of_int 0));
    [reflexivity|]; cbn [orb].
  destruct a as [?|?| |? ? ?]; try reflexivity;
    destruct b as [?|?| |? ? ?]; try reflexivity;
    destruct c as [?|?| |? ? ?]; try discriminate N;
    cbn [add SFadd gtb SFltb SFcompare andb negb];
    rewrite ?andb_false_r; reflexivity.
Qed.

(** C1 (counterexample): [Triangle(NaN, 1, 1)] throws, although no side is
    [<= 0] and none of the three sums is [<=] the remaining side: every
    comparison with NaN is false, and so is
    [satisfiesTriangleInequality()], which the constructor negates. *)
Lemma triangle_nan_side_rejected :
  is_double NaN = true /\
  Triangle.Triangle NaN (of_int 1) (of_int 1) =
    Throws (invalid_argument "Triangle inequality not satisfied") /\
  triangle_violation NaN (of_int 1) (of_int 1) = false /\
  ~ triangle_claim NaN (of_int 1) (of_int 1).
Proof.
  repeat split; try reflexivity.
  intros [H _].
  assert (F : triangle_violation NaN (of_int 1) (of_int 1) = true)
    by (apply H; exists "Triangle inequality not satisfied"; reflexivity).
  vm_compute in F; discriminate F.
Qed.

Lemma Circle_constructs (radius : double) :
  constructs (Circle.Circle radius) (circle_violation radius)
             {| Circle.radius_ := radius |}.
Proof. apply constructs_if. Qed.

Lemma Rectangle_constructs (width height : double) :
  constructs (Rectangle.Rectangle width height)
             (rectangle_violation width height)
             {| Rectangle.width_ := width; Rectangle.height_ := height |}.
Proof. apply constructs_if. Qed.

Lemma Triangle_constructs (a b c : double) :
  constructs (Triangle.Triangle a b c) (triangle_rejected a b c)
             {| Triangle.side_a_ := a; Triangle.side_b_ := b;
                Triangle.side_c_ := c |}.
Proof. rewrite Triangle_ctor_unfold; apply constructs_if. Qed.

(** C1 (amended): every constructor throws [InvalidParameter] exactly when
    its test holds -- Circle: [radius <= 0]; Rectangle: [width <= 0] or
    [height <= 0]; Triangle: a side [<= 0], or not all of [a+b > c],
    [b+c > a], [a+c > b] -- and otherwise returns the instance storing the
    parameters.  A failed construction yields no instance.  For sides that
    are not NaN the test of the Triangle is the one the specification
    lists (a side [<= 0], or [a+b <= c], or [b+c <= a], or [a+c <= b]);
    a Triangle with a NaN side is always rejected. *)
Theorem construction_contract :
  (forall radius,
      constructs (Circle.Circle radius) (circle_violation radius)
                 {| Circle.radius_ := radius |}) /\
  (forall width height,
      constructs (Rectangle.Rectangle width height)
                 (rectangle_violation width height)
                 {| Rectangle.width_ := width;
                    Rectangle.height_ := height |}) /\
  (forall a b c,
      constructs (Triangle.Triangle a b c) (triangle_rejected a b c)
                 {| Triangle.side_a_ := a; Triangle.side_b_ := b;
                    Triangle.side_c_ := c |}) /\
  (forall a b c,
      is_nan a = false -> is_nan b = false -> is_nan c = false ->
      constructs (Triangle.Triangle a b c) (triangle_violation a b c)
                 {| Triangle.side_a_ := a; Triangle.side_b_ := b;
                    Triangle.side_c_ := c |}) /\
  (forall a b c,
      is_nan a || is_nan b || is_nan c = true ->
      InvalidParameter (Triangle.Triangle a b c)).
Proof.
  split; [|split; [|split; [|split]]].
  - exact Circle_constructs.
  - exact Rectangle_constructs.
  - exact Triangle_constructs.
  - intros a b c Na Nb Nc.
    rewrite <- (triangle_rejected_violation a b c Na Nb Nc).
    apply Triangle_constructs.
  - intros a b c N.
    apply (Triangle_constructs a b c), (triangle_rejected_nan a b c N).
Qed.

(** The contract at [Circle(0)], [Rectangle(3, 4)] and [Triangle(1, 1, 3)]. *)
Example construction_contract_witness :
  InvalidParameter (Circle.Circle (of_int 0)) /\
  Rectangle.Rectangle (of_int 3) (of_int 4) =
    Returns {| Rectangle.width_ := of_int 3; Rectangle.height_ := of_int 4 |} /\
  InvalidParameter (Triangle.Triangle (of_int 1) (of_int 1) (of_int 3)).
Proof.
  destruct construction_contract as (HC & HR & HT & _).
  split; [|split].
  - apply (HC (of_int 0)); reflexivity.
  - apply (HR (of_int 3) (of_int 4)); reflexivity.
  - apply (HT (of_int 1) (of_int 1) (of_int 3)); reflexivity.
Defined.

(** The construction failures listed among the testable properties. *)
Example construction_failures :
  InvalidParameter (Circle.Circle (of_int 0)) /\
  InvalidParameter (Circle.Circle (of_int (-1))) /\
  InvalidParameter (Rectangle.Rectangle (of_int 0) (of_int 5)) /\
  InvalidParameter (Rectangle.Rectangle (of_int 3) (of_int 0)) /\
  InvalidParameter (Triangle.Triangle (of_int 1) (of_int 1) (of_int 3)) /\
  InvalidParameter (Triangle.Triangle (of_int 10) (of_int 2) (of_int 3)).
Proof. repeat split; eexists; vm_compute; reflexivity. Qed.

(** ** Setters *)

Lemma fails_atomically_if {S : Type} (view : S -> Shape.t)
      (violated : bool) (what : string) (self self' : S) :
  violated = true ->
  fails_atomically view
    (fun self => if violated
                 then (Throws (invalid_argument what), self)
                 else (Returns tt, self'))
    self.
Proof.
  intros ->; unfold fails_atomically; cbn; auto with shapes.
Qed.

Lemma setSides_unfold (a b c : double) (self : Triangle.t) :
  Triangle.setSides a b c self =
  if triangle_violation a b c
  then (Throws (invalid_argument
                  (if (a <= of_int 0) || (b <= of_int 0) || (c <= of_int 0)
                   then "Triangle sides must be positive"
                   else "Triangle inequality not satisfied")), self)
  else (Returns tt,
        {| Triangle.side_a_ := a; Triangle.side_b_ := b;
           Triangle.side_c_ := c |}).
Proof.
  unfold Triangle.setSides, triangle_violation.
  destruct ((a <= of_int 0) || (b <= of_int 0) || (c <= of_int 0));
    cbn [orb]; [reflexivity|].
  destruct ((a + b <= c) || (b + c <= a) || (a + c <= b)); reflexivity.
Qed.

(** C2: on every instance, a setter whose validation of the proposed
    values fails ([setRadius]: [radius <= 0]; [setDimensions]:
    [width <= 0] or [height <= 0]; [setSides]: a side [<= 0] or
    [a+b <= c] or [b+c <= a] or [a+c <= b]) throws [InvalidParameter] and
    leaves the object as it was: the stored attributes, and with them
    [area], [perimeter], [name] and [isValid], are unchanged. *)
Theorem failed_setter_is_atomic :
  (forall (self : Circle.t) radius,
      circle_violation radius = true ->
      fails_atomically Shape.circle (Circle.setRadius radius) self) /\
  (forall (self : Rectangle.t) width height,
      rectangle_violation width height = true ->
      fails_atomically Shape.rectangle
                       (Rectangle.setDimensions width height) self) /\
  (forall (self : Triangle.t) a b c,
      triangle_violation a b c = true ->
      fails_atomically Shape.triangle (Triangle.setSides a b c) self).
Proof.
  split; [|split].
  - intros self radius H.
    exact (fails_atomically_if Shape.circle _ _ self _ H).
  - intros self width height H.
    exact (fails_atomically_if Shape.rectangle _ _ self _ H).
  - intros self a b c H.
    unfold fails_atomically; rewrite setSides_unfold, H; cbn;
      auto with shapes.
Qed.

(** A setter throws only when its validation fails, and then commits the
    proposed values. *)
Lemma setter_commits :
  (forall (self : Circle.t) radius,
      circle_violation radius = false ->
      Circle.setRadius radius self =
      (Returns tt, {| Circle.radius_ := radius |})) /\
  (forall (self : Rectangle.t) width height,
      rectangle_violation width height = false ->
      Rectangle.setDimensions width height self =
      (Returns tt, {| Rectangle.width_ := width;
                      Rectangle.height_ := height |})) /\
  (forall (self : Triangle.t) a b c,
      triangle_violation a b c = false ->
      Triangle.setSides a b c self =
      (Returns tt, {| Triangle.side_a_ := a; Triangle.side_b_ := b;
                      Triangle.side_c_ := c |})).
Proof.
  split; [|split].
  - intros self radius H. unfold Circle.setRadius.
    unfold circle_violation in H; now rewrite H.
  - intros self width height H. unfold Rectangle.setDimensions.
    unfold rectangle_violation in H; now rewrite H.
  - intros self a b c H. now rewrite setSides_unfold, H.
Qed.

(** The failing calls of the test suite, on the instances it uses. *)
Example failed_setter_calls :
  fails_atomically Shape.circle (Circle.setRadius (of_int (-1)))
                   {| Circle.radius_ := of_int 2 |} /\
  fails_atomically Shape.rectangle
                   (Rectangle.setDimensions (of_int (-1)) (of_int 3))
                   {| Rectangle.width_ := of_int 2;
                      Rectangle.height_ := of_int 3 |} /\
  fails_atomically Shape.triangle
                   (Triangle.setSides (of_int 1) (of_int 1) (of_int 3))
                   {| Triangle.side_a_ := of_int 3;
                      Triangle.side_b_ := of_int 4;
                      Triangle.side_c_ := of_int 5 |}.
Proof.
  destruct failed_setter_is_atomic as (HC & HR & HT).
  split; [|split].
  - apply HC; reflexivity.
  - apply HR; reflexivity.
  - apply HT; reflexivity.
Defined.

(** ** Validity of constructed instances *)

(** The Triangle constructor tests [satisfiesTriangleInequality()] itself,
    which is false on NaN: what it returns is valid. *)
Lemma Triangle_constructed_isValid (a b c : double) (x : Triangle.t) :
  Triangle.Triangle a b c = Returns x -> Triangle.isValid x = true.
Proof.
  rewrite Triangle_ctor_unfold.
  destruct (triangle_rejected a b c) eqn:R; [discriminate|].
  intros H; injection H as <-.
  unfold triangle_rejected in R.
  apply orb_false_elim in R as [R I].
  apply orb_false_elim in R as [R C].
  apply orb_false_elim in R as [A B].
  apply negb_false_iff in I.
  unfold Triangle.isValid, Triangle.satisfiesTriangleInequality; cbn.
  fold (of_int 0). rewrite I.
  apply andb_prop in I as [I I3]; apply andb_prop in I as [I1 I2].
  destruct (gtb_not_nan _ _ I1) as [Nab _].
  destruct (gtb_not_nan _ _ I2) as [Nbc _].
  destruct (add_not_nan _ _ Nab) as [Na Nb].
  destruct (add_not_nan _ _ Nbc) as [_ Nc].
  rewrite !gtb_zero_negb_leb by assumption.
  now rewrite A, B, C.
Qed.

(** A Circle or a Rectangle built from parameters that are not NaN is
    valid. *)
Lemma Circle_constructed_isValid (radius : double) (c : Circle.t) :
  is_nan radius = false ->
  Circle.Circle radius = Returns c -> Circle.isValid c = true.
Proof.
  intros N; unfold Circle.Circle.
  destruct (radius <= of_int 0) eqn:L; [discriminate|].
  intros H; injection H as <-.
  unfold Circle.isValid; cbn [Circle.radius_].
  now rewrite gtb_zero_negb_leb, L.
Qed.

Lemma Rectangle_constructed_isValid (width height : double)
      (r : Rectangle.t) :
  is_nan width = false -> is_nan height = false ->
  Rectangle.Rectangle width height = Returns r ->
  Rectangle.isValid r = true.
Proof.
  intros NW NH; unfold Rectangle.Rectangle.
  destruct (width <= of_int 0) eqn:W; [discriminate|].
  destruct (height <= of_int 0) eqn:H; [discriminate|]; cbn [orb].
  intros E; injection E as <-.
  unfold Rectangle.isValid; cbn [Rectangle.width_ Rectangle.height_].
  now rewrite !gtb_zero_negb_leb, W, H.
Qed.

(** A setter that returns, called with parameters that are not NaN,
    leaves a valid instance. *)
Lemma setRadius_returns_isValid (radius : double) (self : Circle.t) :
  is_nan radius = false ->
  fst (Circle.setRadius radius self) = Returns tt ->
  Circle.isValid (snd (Circle.setRadius radius self)) = true.
Proof.
  intros N; unfold Circle.setRadius.
  destruct (radius <= of_int 0) eqn:L; [discriminate|]; intros _.
  unfold Circle.isValid; cbn [snd Circle.radius_].
  now rewrite gtb_zero_negb_leb, L.
Qed.

Lemma setDimensions_returns_isValid (width height : double)
      (self : Rectangle.t) :
  is_nan width = false -> is_nan height = false ->
  fst (Rectangle.setDimensions width height self) = Returns tt ->
  Rectangle.isValid (snd (Rectangle.setDimensions width height self)) = true.
Proof.
  intros NW NH; unfold Rectangle.setDimensions.
  destruct (width <= of_int 0) eqn:W; [discriminate|].
  destruct (height <= of_int 0) eqn:H; [discriminate|]; cbn [orb].
  intros _; unfold Rectangle.isValid;
    cbn [snd Rectangle.width_ Rectangle.height_].
  now rewrite !gtb_zero_negb_leb, W, H.
Qed.

Lemma setSides_returns_isValid (a b c : double) (self : Triangle.t) :
  is_nan a = false -> is_nan b = false -> is_nan c = false ->
  fst (Triangle.setSides a b c self) = Returns tt ->
  Triangle.isValid (snd (Triangle.setSides a b c self)) = true.
Proof.
  intros Na Nb Nc; rewrite setSides_unfold.
  destruct (triangle_violation a b c) eqn:V; [discriminate|]; intros _.
  unfold triangle_violation in V.
  repeat (apply orb_false_elim in V as [V ?]).
  assert (Pa : (a > of_int 0) = true)
    by (rewrite gtb_zero_negb_leb by assumption; now rewrite V).
  assert (Pb : (b > of_int 0) = true)
    by (rewrite gtb_zero_negb_leb by assumption;
        now match goal with H : (b <= _) = false |- _ => rewrite H end).
  assert (Pc : (c > of_int 0) = true)
    by (rewrite gtb_zero_negb_leb by assumption;
        now match goal with H : (c <= _) = false |- _ => rewrite H end).
  unfold Triangle.isValid, Triangle.satisfiesTriangleInequality;
    cbn [snd Triangle.side_a_ Triangle.side_b_ Triangle.side_c_].
  rewrite Pa, Pb, Pc; cbn [andb].
  rewrite !gtb_negb_leb by (auto using add_positive_not_nan).
  repeat match goal with H : (_ + _ <= _) = false |- _ =>
                           rewrite H; clear H end.
  reflexivity.
Qed.

(** C3 (the code at the failing inputs): the constructors of Circle and
    Rectangle and the three setters test [<= 0], which is false on NaN, so
    they accept a NaN parameter; [isValid()], which tests [> 0], is then
    false on the instance that was constructed or set. *)
Theorem nan_parameter_breaks_validity :
  is_double NaN = true /\
  Circle.Circle NaN = Returns {| Circle.radius_ := NaN |} /\
  Shape.isValid (Shape.circle {| Circle.radius_ := NaN |}) = false /\
  Rectangle.Rectangle NaN (of_int 1) =
    Returns {| Rectangle.width_ := NaN; Rectangle.height_ := of_int 1 |} /\
  Shape.isValid
    (Shape.rectangle
       {| Rectangle.width_ := NaN; Rectangle.height_ := of_int 1 |}) = false /\
  (exists x,
      Triangle.Triangle (of_int 3) (of_int 4) (of_int 5) = Returns x /\
      Triangle.isValid x = true /\
      fst (Triangle.setSides NaN (of_int 1) (of_int 1) x) = Returns tt /\
      Triangle.isValid
        (snd (Triangle.setSides NaN (of_int 1) (of_int 1) x)) = false) /\
  (exists c,
      Circle.Circle (of_int 1) = Returns c /\
      Circle.isValid c = true /\
      fst (Circle.setRadius NaN c) = Returns tt /\
      Circle.isValid (snd (Circle.setRadius NaN c)) = false).
Proof.
  repeat split; try reflexivity.
  - eexists; repeat split; reflexivity.
  - eexists; repeat split; reflexivity.
Qed.

(** ** Heron's formula *)

(** The exact area of that triangle is below [2^972], hence within the
    range of a double: [16 * area^2 < 16 * (2^972)^2]. *)
Lemma needle_exact_area_in_range :
  (to_Q needle_a == inject_Z (2 ^ 460))%Q /\
  (to_Q needle_b == inject_Z (3 * 2 ^ 511))%Q /\
  let a := (2 ^ 460)%Z in
  let b := (3 * 2 ^ 511)%Z in
  (0 < (a + b + b) * (b + b - a) * (a + b - b) * (a + b - b)
   < 16 * (2 ^ 972) ^ 2)%Z.
Proof.
  repeat split; vm_compute; reflexivity.
Qed.

(** C4 (counterexample): the triangle is constructed and valid, the
    semi-perimeter rounds to [s = b], the product [s * (s - a)] overflows
    to infinity and [s - b] is zero, so the radicand computed by [area()]
    is [inf * 0 = NaN]: it is not [>= 0], and [area()] returns NaN. *)
Lemma heron_radicand_nan :
  is_double needle_a = true /\ is_double needle_b = true /\
  Triangle.Triangle needle_a needle_b needle_b = Returns needle /\
  Triangle.isValid needle = true /\
  Triangle.perimeter needle / of_int 2 = needle_b /\
  Triangle.radicand needle = NaN /\
  (of_int 0 <= Triangle.radicand needle) = false /\
  Shape.area (Shape.triangle needle) = NaN.
Proof. repeat split; vm_compute; reflexivity. Qed.

Ltac split_andb :=
  repeat match goal with
         | H : _ && _ = true |- _ => apply andb_prop in H as [? ?]
         end.

(** A side of a valid triangle is a finite positive double: an infinite
    side is not below the sum of the other two. *)
Lemma positive_below_is_finite (x y : double) :
  is_double x = true -> (x > of_int 0) = true -> (y > x) = true ->
  finite_positive x.
Proof.
  rewrite of_int_0; unfold gtb.
  destruct x as [s|s| |s m e]; try discriminate; destruct s;
    try discriminate; intros D _ H.
  - destruct y as [[]|[]| |[] ? ?]; discriminate H.
  - exists m, e; split; [reflexivity|exact D].
Qed.

Lemma valid_sides_finite_positive (x : Triangle.t) :
  is_double (Triangle.side_a_ x) = true ->
  is_double (Triangle.side_b_ x) = true ->
  is_double (Triangle.side_c_ x) = true ->
  Triangle.isValid x = true ->
  finite_positive (Triangle.side_a_ x) /\
  finite_positive (Triangle.side_b_ x) /\
  finite_positive (Triangle.side_c_ x).
Proof.
  intros Da Db Dc V.
  unfold Triangle.isValid, Triangle.satisfiesTriangleInequality in V.
  split_andb.
  repeat split; eapply positive_below_is_finite; eassumption.
Qed.

(** The three tests of [satisfiesTriangleInequality()], made on rounded
    sums, imply the strict triangle inequality of the exact values. *)
Lemma valid_exact_inequalities (x : Triangle.t) :
  is_double (Triangle.side_a_ x) = true ->
  is_double (Triangle.side_b_ x) = true ->
  is_double (Triangle.side_c_ x) = true ->
  Triangle.isValid x = true ->
  let a := units (Triangle.side_a_ x) in
  let b := units (Triangle.side_b_ x) in
  let c := units (Triangle.side_c_ x) in
  (c < a + b /\ a < b + c /\ b < a + c)%Z.
Proof.
  intros Da Db Dc V.
  destruct (valid_sides_finite_positive x Da Db Dc V) as (Fa & Fb & Fc).
  unfold Triangle.isValid, Triangle.satisfiesTriangleInequality in V.
  split_andb.
  cbv zeta; repeat split; apply add_gt_exact; assumption.
Qed.

(** ** Classification of triangles *)

(** C5 (counterexample): a valid triangle whose sides a and c differ by
    more than the tolerance, and which [isEquilateral()] and [name()]
    nevertheless class as equilateral. *)
Lemma equilateral_ignores_a_c :
  is_double drift_a = true /\ is_double drift_b = true /\
  is_double drift_c = true /\
  Triangle.Triangle drift_a drift_b drift_c = Returns drift /\
  Triangle.isValid drift = true /\
  within_epsilon drift_a drift_c = false /\
  all_sides_within_epsilon drift = false /\
  Triangle.isEquilateral drift = true /\
  Triangle.name drift = "Equilateral Triangle" /\
  Triangle.isEquilateral drift <> all_sides_within_epsilon drift.
Proof. repeat split; try reflexivity. vm_compute; discriminate. Qed.

(** C5 (amended): [isEquilateral()] is true exactly when a and b, and b
    and c, are equal within the tolerance (a and c are not compared, so
    three pairs within the tolerance are sufficient but not necessary);
    [isIsosceles()] is true exactly when one of the three pairs is;
    equilateral implies isosceles; and [name()] is the string of the
    class, computed from the sides the instance holds when it is called:
    after a successful [setSides] it is the class of the new sides. *)
Theorem triangle_classification :
  forall x : Triangle.t,
    Triangle.isEquilateral x = chained_within_epsilon x /\
    Triangle.isIsosceles x = some_sides_within_epsilon x /\
    (all_sides_within_epsilon x = true -> Triangle.isEquilateral x = true) /\
    (Triangle.isEquilateral x = true -> Triangle.isIsosceles x = true) /\
    Shape.name (Shape.triangle x) =
      (if chained_within_epsilon x then "Equilateral Triangle"
       else if some_sides_within_epsilon x then "Isosceles Triangle"
       else "Scalene Triangle") /\
    (forall a b c,
        fst (Triangle.setSides a b c x) = Returns tt ->
        Triangle.name (snd (Triangle.setSides a b c x)) =
        Triangle.name {| Triangle.side_a_ := a; Triangle.side_b_ := b;
                         Triangle.side_c_ := c |}).
Proof.
  intros x; repeat split.
  - unfold all_sides_within_epsilon; intros H.
    apply andb_prop in H as [H _]; exact H.
  - unfold Triangle.isEquilateral, Triangle.isIsosceles.
    intros H; apply andb_prop in H as [-> _]; reflexivity.
  - intros a b c; rewrite setSides_unfold.
    destruct (triangle_violation a b c); [discriminate|reflexivity].
Qed.

(** The classification at sides 5, 5, 5 and after [setSides(5, 5, 6)]. *)
Example triangle_classification_witness :
  Triangle.isIsosceles (tri 5 5 5) = true /\
  Triangle.name (snd (Triangle.setSides (of_int 5) (of_int 5) (of_int 6)
                                        (tri 3 4 5)))
  = Triangle.name (tri 5 5 6).
Proof.
  split.
  - apply (triangle_classification (tri 5 5 5)); reflexivity.
  - apply (triangle_classification (tri 3 4 5)); reflexivity.
Defined.

(** The classifications listed among the testable properties. *)
Example classification_examples :
  (Triangle.isEquilateral (tri 5 5 5), Triangle.isIsosceles (tri 5 5 5),
   Triangle.name (tri 5 5 5)) = (true, true, "Equilateral Triangle") /\
  (Triangle.isEquilateral (tri 5 5 6), Triangle.isIsosceles (tri 5 5 6),
   Triangle.name (tri 5 5 6)) = (false, true, "Isosceles Triangle") /\
  (Triangle.isEquilateral (tri 3 4 5), Triangle.isIsosceles (tri 3 4 5),
   Triangle.name (tri 3 4 5)) = (false, false, "Scalene Triangle").
Proof. repeat split. Qed.

(** ** Area and perimeter *)

(** C6: through the [Shape] interface every Circle of radius r has area
    [M_PI * r * r] and perimeter [2 * M_PI * r], every Rectangle has area
    [w * h] and perimeter [2 * (w + h)], every Triangle has perimeter
    [a + b + c] and area [sqrt (s * (s - a) * (s - b) * (s - c))] with
    [s = perimeter / 2], each evaluated in binary64 from left to right,
    where r, w, h and a, b, c are the values the getters return: for a
    constructed instance, the parameters of the constructor.
    [Triangle(3, 4, 5)] has perimeter 12 and an area within 1e-9 of 6 (it
    is 6). *)
Theorem shape_formulas :
  (forall c : Circle.t,
      let r := Circle.radius c in
      Shape.area (Shape.circle c) = M_PI * r * r /\
      Shape.perimeter (Shape.circle c) = of_int 2 * M_PI * r) /\
  (forall x : Rectangle.t,
      let w := Rectangle.width x in
      let h := Rectangle.height x in
      Shape.area (Shape.rectangle x) = w * h /\
      Shape.perimeter (Shape.rectangle x) = of_int 2 * (w + h)) /\
  (forall x : Triangle.t,
      let '(a, b, c) := Triangle.sides x in
      let s := Shape.perimeter (Shape.triangle x) / of_int 2 in
      Shape.perimeter (Shape.triangle x) = a + b + c /\
      Shape.area (Shape.triangle x) =
        sqrt (s * (s - a) * (s - b) * (s - c))) /\
  (forall r c, Circle.Circle r = Returns c -> Circle.radius c = r) /\
  (forall w h x,
      Rectangle.Rectangle w h = Returns x ->
      Rectangle.width x = w /\ Rectangle.height x = h) /\
  (forall a b c x,
      Triangle.Triangle a b c = Returns x -> Triangle.sides x = (a, b, c)) /\
  (Triangle.Triangle (of_int 3) (of_int 4) (of_int 5) = Returns (tri 3 4 5) /\
   Shape.perimeter (Shape.triangle (tri 3 4 5)) = of_int 12 /\
   Shape.area (Shape.triangle (tri 3 4 5)) = of_int 6 /\
   (abs (Shape.area (Shape.triangle (tri 3 4 5)) - of_int 6) < epsilon)
     = true).
Proof.
  repeat split.
  - intros r c H. apply (Circle_constructs r) in H as ->. reflexivity.
  - apply (Rectangle_constructs w h) in H as ->. reflexivity.
  - apply (Rectangle_constructs w h) in H as ->. reflexivity.
  - intros a b c x H. apply (Triangle_constructs a b c) in H as ->.
    reflexivity.
Qed.

(** The formulas at [Circle(2)]. *)
Example shape_formulas_witness :
  (forall c, Circle.Circle (of_int 2) = Returns c ->
             Shape.area (Shape.circle c) = M_PI * of_int 2 * of_int 2) /\
  Circle.Circle (of_int 2) = Returns {| Circle.radius_ := of_int 2 |}.
Proof.
  destruct shape_formulas as (HC & _ & _ & HR & _).
  split; [|reflexivity].
  intros c H. destruct (HC c) as [-> _].
  now rewrite (HR (of_int 2) c H).
Defined.

(** ** The aggregator *)

Import GeometryCalculator.

Lemma sum_in_order_nil : sum_in_order [] = of_int 0.
Proof. reflexivity. Qed.

Lemma sum_in_order_snoc (xs : list double) (x : double) :
  sum_in_order (xs ++ [x]) = sum_in_order xs + x.
Proof. unfold sum_in_order; now rewrite rev_unit. Qed.

(** The loop of [totalArea] and [totalPerimeter], for any measure [f] and
    any starting value of [total]. *)
Lemma loop_snoc (f : Shape.t -> double) (l : list Shape.t) (s : Shape.t)
      (total : double) :
  fold_left (fun total shape => total + f shape) (l ++ [s]) total =
  fold_left (fun total shape => total + f shape) l total + f s.
Proof. now rewrite fold_left_app. Qed.

Lemma loop_is_sum_in_order (f : Shape.t -> double) (l : list Shape.t) :
  fold_left (fun total shape => total + f shape) l (of_int 0) =
  sum_in_order (map f l).
Proof.
  induction l as [|s l IH] using rev_ind.
  - reflexivity.
  - rewrite loop_snoc, map_app; cbn [map].
    now rewrite sum_in_order_snoc, IH.
Qed.

Lemma addShape_unfold (shape : option Shape.t) (self : t) :
  addShape shape self =
  (Returns tt,
   match shape with
   | Some s => if Shape.isValid s
               then {| shapes_ := shapes_ self ++ [s] |}
               else self
   | None => self
   end).
Proof.
  unfold addShape; destruct shape as [s|]; [|reflexivity].
  destruct (Shape.isValid s); reflexivity.
Qed.

Lemma addShape_valid (s : Shape.t) (self : t) :
  Shape.isValid s = true ->
  snd (addShape (Some s) self) = {| shapes_ := shapes_ self ++ [s] |}.
Proof. intros H; now rewrite addShape_unfold, H. Qed.

Lemma addShape_dropped (shape : option Shape.t) (self : t) :
  (forall s, shape = Some s -> Shape.isValid s = false) ->
  snd (addShape shape self) = self.
Proof.
  intros H; rewrite addShape_unfold; destruct shape as [s|];
    [|reflexivity].
  now rewrite (H s eq_refl).
Qed.

(** Every element [addShape] appends is valid when it is appended. *)
Lemma addShape_appends_valid (shape : option Shape.t) (self : t) :
  forall s, shapes_ (snd (addShape shape self)) = shapes_ self ++ [s] ->
            shape = Some s /\ Shape.isValid s = true.
Proof.
  intros s; rewrite addShape_unfold; cbn [snd].
  assert (N : shapes_ self <> shapes_ self ++ [s]).
  { intros E; apply (f_equal (@List.length _)) in E.
    rewrite length_app in E; cbn in E; lia. }
  destruct shape as [s'|]; [|intros E; now destruct N].
  destruct (Shape.isValid s') eqn:V; [|intros E; now destruct N].
  cbn [shapes_]; intros E; apply app_inv_head in E.
  injection E as ->; auto.
Qed.

(** C7: [addShape] appends the shape at the end of the sequence exactly
    when the pointer is not null and the shape is valid; otherwise it
    leaves the aggregator as it was.  Neither [addShape] nor [clear]
    throws, and the other operations are total functions: [getShape]
    answers with a null pointer, never with an error. *)
Theorem addShape_contract :
  forall (shape : option Shape.t) (self : t),
    fst (addShape shape self) = Returns tt /\
    fst (clear self) = Returns tt /\
    (forall s, shape = Some s -> Shape.isValid s = true ->
               shapes_ (snd (addShape shape self)) = shapes_ self ++ [s]) /\
    (shape = None -> snd (addShape shape self) = self) /\
    (forall s, shape = Some s -> Shape.isValid s = false ->
               snd (addShape shape self) = self) /\
    ((exists s, shape = Some s /\ Shape.isValid s = true) <->
     shapeCount (snd (addShape shape self)) = S (shapeCount self)) /\
    ((shape = None \/ exists s, shape = Some s /\ Shape.isValid s = false) <->
     snd (addShape shape self) = self).
Proof.
  intros shape self.
  assert (N : forall l (s : Shape.t), l ++ [s] <> l).
  { intros l s E; apply (f_equal (@List.length _)) in E.
    rewrite length_app in E; cbn in E; lia. }
  rewrite addShape_unfold; cbn [fst snd].
  repeat split; try reflexivity.
  - intros s -> V; now rewrite V.
  - intros ->; reflexivity.
  - intros s -> V; now rewrite V.
  - intros (s & -> & V); rewrite V; unfold shapeCount; cbn.
    rewrite length_app; cbn; lia.
  - destruct shape as [s|]; [|intros E; lia].
    destruct (Shape.isValid s) eqn:V; [eauto|intros E; lia].
  - intros [->|(s & -> & V)]; [reflexivity|now rewrite V].
  - destruct shape as [s|]; [|auto].
    destruct (Shape.isValid s) eqn:V; [|eauto].
    destruct self as [l]; cbn; intros E; injection E as E.
    now apply N in E.
Qed.

(** A valid triangle is appended; a circle of NaN radius and a null
    pointer are dropped. *)
Example addShape_contract_witness :
  shapes_ (snd (addShape (Some (Shape.triangle (tri 3 4 5)))
                         GeometryCalculator)) =
    [Shape.triangle (tri 3 4 5)] /\
  snd (addShape (Some (Shape.circle {| Circle.radius_ := NaN |}))
                GeometryCalculator) = GeometryCalculator /\
  snd (addShape None GeometryCalculator) = GeometryCalculator.
Proof.
  split; [|split].
  - destruct (addShape_contract (Some (Shape.triangle (tri 3 4 5)))
                                GeometryCalculator)
      as (_ & _ & H & _).
    apply H; reflexivity.
  - destruct (addShape_contract
                (Some (Shape.circle {| Circle.radius_ := NaN |}))
                GeometryCalculator)
      as (_ & _ & _ & _ & H & _).
    apply (H (Shape.circle {| Circle.radius_ := NaN |})); reflexivity.
  - destruct (addShape_contract None GeometryCalculator)
      as (_ & _ & _ & H & _).
    apply H; reflexivity.
Defined.

(** C8: in every state [totalArea()] is the sum of [area()] over the
    stored shapes in insertion order, and [totalPerimeter()] the sum of
    [perimeter()]; on the empty collection both are 0 and [shapeCount()]
    is 0. *)
Theorem totals_are_ordered_sums :
  (forall self : t,
      totalArea self = sum_in_order (map Shape.area (shapes_ self)) /\
      totalPerimeter self =
        sum_in_order (map Shape.perimeter (shapes_ self))) /\
  totalArea GeometryCalculator = of_int 0 /\
  totalPerimeter GeometryCalculator = of_int 0 /\
  shapeCount GeometryCalculator = 0%nat /\
  (forall self : t,
      shapes_ self = [] ->
      totalArea self = of_int 0 /\ totalPerimeter self = of_int 0 /\
      shapeCount self = 0%nat).
Proof.
  repeat split; try apply loop_is_sum_in_order.
  all: destruct self as [l]; cbn in *; subst l; reflexivity.
Qed.

(** The totals of the empty collection. *)
Example totals_are_ordered_sums_witness :
  totalArea {| shapes_ := [] |} = of_int 0 /\
  totalPerimeter {| shapes_ := [] |} = of_int 0 /\
  shapeCount {| shapes_ := [] |} = 0%nat.
Proof.
  apply (totals_are_ordered_sums); reflexivity.
Defined.

(** After [clear()] the collection is empty and the totals are 0. *)
Lemma clear_resets (self : t) :
  shapeCount (snd (clear self)) = 0%nat /\
  totalArea (snd (clear self)) = of_int 0 /\
  totalPerimeter (snd (clear self)) = of_int 0.
Proof. repeat split. Qed.

(** C9: [getShape(i)] is the shape stored at position i, counted from 0,
    when [i < shapeCount()], and the null pointer exactly when
    [i >= shapeCount()]. *)
Theorem getShape_in_range :
  forall (self : t) (i : nat),
    ((i < shapeCount self)%nat ->
     exists s, getShape i self = Some s /\
               nth_error (shapes_ self) i = Some s /\
               forall d, nth i (shapes_ self) d = s) /\
    (getShape i self = None <-> (shapeCount self <= i)%nat).
Proof.
  intros self i; unfold getShape, shapeCount.
  destruct (Nat.leb_spec (List.length (shapes_ self)) i) as [L|L].
  - split; [lia|tauto].
  - split.
    + intros _.
      destruct (nth_error (shapes_ self) i) as [s|] eqn:E.
      * exists s; repeat split.
        intros d; now apply nth_error_nth.
      * apply nth_error_None in E; lia.
    + split; [|lia].
      intros E; apply nth_error_None in E; lia.
Qed.

(** Lookups in a collection of one shape. *)
Example getShape_in_range_witness :
  (exists s,
      getShape 0 {| shapes_ := [Shape.triangle (tri 3 4 5)] |} = Some s /\
      nth_error [Shape.triangle (tri 3 4 5)] 0 = Some s /\
      forall d, nth 0 [Shape.triangle (tri 3 4 5)] d = s) /\
  getShape 1 {| shapes_ := [Shape.triangle (tri 3 4 5)] |} = None.
Proof.
  split.
  - apply (getShape_in_range {| shapes_ := [Shape.triangle (tri 3 4 5)] |} 0).
    unfold shapeCount; cbn; lia.
  - apply (getShape_in_range {| shapes_ := [Shape.triangle (tri 3 4 5)] |} 1).
    unfold shapeCount; cbn; lia.
Defined.

(** The lookups of the test suite: an empty collection has no shape at 0,
    and a collection of two has shapes at 0 and 1 and none at 2. *)
Example getShape_examples :
  getShape 0 GeometryCalculator = None /\
  let two :=
    snd (addShape (Some (Shape.rectangle
                           {| Rectangle.width_ := of_int 2;
                              Rectangle.height_ := of_int 3 |}))
           (snd (addShape (Some (Shape.circle
                                   {| Circle.radius_ := of_int 1 |}))
                          GeometryCalculator))) in
  shapeCount two = 2%nat /\
  option_map Shape.name (getShape 0 two) = Some "Circle" /\
  option_map Shape.name (getShape 1 two) = Some "Rectangle" /\
  getShape 2 two = None.
Proof. repeat split. Qed.

(** C10: inserting a present and valid shape adds 1 to [shapeCount()],
    [s.area()] to [totalArea()] and [s.perimeter()] to
    [totalPerimeter()]; inserting an absent or invalid shape changes none
    of the three. *)
Theorem addShape_observables :
  forall (self : t) (shape : option Shape.t),
    (forall s,
        shape = Some s -> Shape.isValid s = true ->
        let after := snd (addShape shape self) in
        shapeCount after = S (shapeCount self) /\
        totalArea after = totalArea self + Shape.area s /\
        totalPerimeter after = totalPerimeter self + Shape.perimeter s) /\
    ((shape = None \/ exists s, shape = Some s /\ Shape.isValid s = false) ->
     let after := snd (addShape shape self) in
     shapeCount after = shapeCount self /\
     totalArea after = totalArea self /\
     totalPerimeter after = totalPerimeter self).
Proof.
  intros self shape; split.
  - intros s -> V after; subst after.
    rewrite (addShape_valid s self V).
    unfold shapeCount, totalArea, totalPerimeter; cbn [shapes_].
    rewrite length_app, !loop_snoc; cbn; repeat split; lia.
  - intros H after; subst after.
    rewrite addShape_dropped; [repeat split|].
    intros s ->; destruct H as [H|(s' & H & V)];
      [discriminate|now injection H as ->].
Qed.

(** Inserting a rectangle, then a null pointer, after a triangle. *)
Example addShape_observables_witness :
  let before := {| shapes_ := [Shape.triangle (tri 3 4 5)] |} in
  let s := Shape.rectangle {| Rectangle.width_ := of_int 3;
                              Rectangle.height_ := of_int 4 |} in
  (shapeCount (snd (addShape (Some s) before)) = S (shapeCount before) /\
   totalArea (snd (addShape (Some s) before)) =
     totalArea before + Shape.area s /\
   totalPerimeter (snd (addShape (Some s) before)) =
     totalPerimeter before + Shape.perimeter s) /\
  (shapeCount (snd (addShape None before)) = shapeCount before /\
   totalArea (snd (addShape None before)) = totalArea before /\
   totalPerimeter (snd (addShape None before)) = totalPerimeter before).
Proof.
  intros before s; split.
  - destruct (addShape_observables before (Some s)) as (H & _).
    apply (H s); reflexivity.
  - destruct (addShape_observables before None) as (_ & H).
    apply H; left; reflexivity.
Defined.

(** The totals of the test suite: Circle(2), Rectangle(3, 4) and
    Triangle(3, 4, 5) inserted in this order. *)
Example totals_example :
  let three :=
    snd (addShape (Some (Shape.triangle (tri 3 4 5)))
           (snd (addShape (Some (Shape.rectangle
                                   {| Rectangle.width_ := of_int 3;
                                      Rectangle.height_ := of_int 4 |}))
                  (snd (addShape (Some (Shape.circle
                                          {| Circle.radius_ := of_int 2 |}))
                                 GeometryCalculator))))) in
  shapeCount three = 3%nat /\
  totalArea three = M_PI * of_int 2 * of_int 2 + of_int 12 + of_int 6 /\
  totalPerimeter three =
    of_int 2 * M_PI * of_int 2 + of_int 14 + of_int 12.
Proof. repeat split; vm_compute; reflexivity. Qed.

(** * Further properties of the code *)

(** ** Validity after construction and after a setter *)

Lemma nan_not_positive (x : double) :
  is_nan x = true -> (x > of_int 0) = false.
Proof. destruct x; try discriminate; reflexivity. Qed.

(** X1: a constructed Triangle is always valid; a constructed Circle or
    Rectangle is valid exactly when no parameter is NaN. *)
Theorem constructed_validity :
  (forall a b c x,
      Triangle.Triangle a b c = Returns x -> Triangle.isValid x = true) /\
  (forall radius c,
      Circle.Circle radius = Returns c ->
      Circle.isValid c = negb (is_nan radius)) /\
  (forall width height x,
      Rectangle.Rectangle width height = Returns x ->
      Rectangle.isValid x = negb (is_nan width || is_nan height)).
Proof.
  split; [exact Triangle_constructed_isValid|split].
  - intros radius c H. destruct (is_nan radius) eqn:N.
    + apply (Circle_constructs radius) in H as ->.
      exact (nan_not_positive radius N).
    + exact (Circle_constructed_isValid radius c N H).
  - intros width height x H.
    destruct (is_nan width) eqn:NW; [|destruct (is_nan height) eqn:NH].
    + apply (Rectangle_constructs width height) in H as ->.
      unfold Rectangle.isValid; cbn [Rectangle.width_].
      now rewrite (nan_not_positive width NW).
    + apply (Rectangle_constructs width height) in H as ->.
      unfold Rectangle.isValid; cbn [Rectangle.height_].
      rewrite (nan_not_positive height NH); apply andb_false_r.
    + exact (Rectangle_constructed_isValid width height x NW NH H).
Qed.

(** The theorem at [Triangle(3, 4, 5)], [Circle(2)] and
    [Rectangle(3, 4)]. *)
Example constructed_validity_witness :
  Triangle.isValid (tri 3 4 5) = true /\
  Circle.isValid {| Circle.radius_ := of_int 2 |} = true /\
  Rectangle.isValid {| Rectangle.width_ := of_int 3;
                       Rectangle.height_ := of_int 4 |} = true.
Proof.
  destruct constructed_validity as (HT & HC & HR).
  split; [|split].
  - apply (HT (of_int 3) (of_int 4) (of_int 5)); reflexivity.
  - apply (HC (of_int 2)); reflexivity.
  - apply (HR (of_int 3) (of_int 4)); reflexivity.
Defined.

(** A NaN side passes every test of [setSides]. *)
Lemma nan_side_no_violation (a b c : double) :
  is_nan a || is_nan b || is_nan c = true ->
  (a <= of_int 0) = false -> (b <= of_int 0) = false ->
  (c <= of_int 0) = false ->
  triangle_violation a b c = false.
Proof.
  unfold triangle_violation; intros N A B C; rewrite A, B, C; cbn [orb].
  assert (L : forall y, (NaN <= y) = false /\ (y <= NaN) = false)
    by (intros y; destruct (nan_compares_false y) as (L & R & _); auto).
  assert (P : forall y, NaN + y = NaN /\ y + NaN = NaN)
    by (intros y; destruct y; split; reflexivity).
  destruct a as [?|?| |? ? ?], b as [?|?| |? ? ?], c as [?|?| |? ? ?];
    try discriminate N; fold NaN;
    repeat match goal with
           | |- context [NaN + ?y] => rewrite (proj1 (P y))
           | |- context [?y + NaN] => rewrite (proj2 (P y))
           | |- context [NaN <= ?y] => rewrite (proj1 (L y))
           | |- context [?y <= NaN] => rewrite (proj2 (L y))
           end; reflexivity.
Qed.

(** X2: after a setter call that returns, the instance is valid exactly
    when none of the proposed values is NaN.  The NaN case occurs:
    [setRadius(NaN)] returns, [setDimensions] returns when one dimension
    is NaN and the other one is not [<= 0], and [setSides] returns when a
    side is NaN and no side is [<= 0]; the triangle is then left invalid,
    with sides that the Triangle constructor rejects. *)
Theorem setter_validity :
  (forall radius self,
      fst (Circle.setRadius radius self) = Returns tt ->
      Circle.isValid (snd (Circle.setRadius radius self))
      = negb (is_nan radius)) /\
  (forall width height self,
      fst (Rectangle.setDimensions width height self) = Returns tt ->
      Rectangle.isValid (snd (Rectangle.setDimensions width height self))
      = negb (is_nan width || is_nan height)) /\
  (forall a b c self,
      fst (Triangle.setSides a b c self) = Returns tt ->
      Triangle.isValid (snd (Triangle.setSides a b c self))
      = negb (is_nan a || is_nan b || is_nan c)) /\
  (forall self, fst (Circle.setRadius NaN self) = Returns tt) /\
  (forall x self,
      (x <= of_int 0) = false ->
      fst (Rectangle.setDimensions NaN x self) = Returns tt /\
      fst (Rectangle.setDimensions x NaN self) = Returns tt) /\
  (forall a b c self,
      is_nan a || is_nan b || is_nan c = true ->
      (a <= of_int 0) = false -> (b <= of_int 0) = false ->
      (c <= of_int 0) = false ->
      fst (Triangle.setSides a b c self) = Returns tt /\
      Triangle.isValid (snd (Triangle.setSides a b c self)) = false /\
      InvalidParameter (Triangle.Triangle a b c)).
Proof.
  assert (T : forall a b c self,
             fst (Triangle.setSides a b c self) = Returns tt ->
             Triangle.isValid (snd (Triangle.setSides a b c self))
             = negb (is_nan a || is_nan b || is_nan c)).
  { intros a b c self H.
    destruct (is_nan a) eqn:Na; [|destruct (is_nan b) eqn:Nb;
                                    [|destruct (is_nan c) eqn:Nc]].
    + rewrite setSides_unfold in *.
      destruct (triangle_violation a b c); [discriminate|].
      unfold Triangle.isValid; cbn [snd Triangle.side_a_].
      now rewrite (nan_not_positive a Na).
    + rewrite setSides_unfold in *.
      destruct (triangle_violation a b c); [discriminate|].
      unfold Triangle.isValid; cbn [snd Triangle.side_b_].
      rewrite (nan_not_positive b Nb), andb_false_r; reflexivity.
    + rewrite setSides_unfold in *.
      destruct (triangle_violation a b c); [discriminate|].
      unfold Triangle.isValid; cbn [snd Triangle.side_c_].
      rewrite (nan_not_positive c Nc), andb_false_r; reflexivity.
    + exact (setSides_returns_isValid a b c self Na Nb Nc H). }
  split; [|split; [|split; [exact T|split; [|split]]]].
  - intros radius self H. destruct (is_nan radius) eqn:N.
    + destruct radius; try discriminate; reflexivity.
    + exact (setRadius_returns_isValid radius self N H).
  - intros width height self H.
    destruct (is_nan width) eqn:NW; [|destruct (is_nan height) eqn:NH].
    + unfold Rectangle.setDimensions in *.
      destruct ((width <= of_int 0) || (height <= of_int 0));
        [discriminate|].
      unfold Rectangle.isValid; cbn [snd Rectangle.width_].
      now rewrite (nan_not_positive width NW).
    + unfold Rectangle.setDimensions in *.
      destruct ((width <= of_int 0) || (height <= of_int 0));
        [discriminate|].
      unfold Rectangle.isValid; cbn [snd Rectangle.height_].
      rewrite (nan_not_positive height NH); apply andb_false_r.
    + exact (setDimensions_returns_isValid width height self NW NH H).
  - intros self; reflexivity.
  - intros x self X; unfold Rectangle.setDimensions.
    rewrite X, orb_false_r; cbn [orb]. split; reflexivity.
  - intros a b c self N A B C.
    assert (R : fst (Triangle.setSides a b c self) = Returns tt).
    { rewrite setSides_unfold, (nan_side_no_violation a b c N A B C).
      reflexivity. }
    split; [exact R|split].
    + rewrite (T a b c self R), N; reflexivity.
    + rewrite Triangle_ctor_unfold, (triangle_rejected_nan a b c N).
      apply InvalidParameter_Throws.
Qed.

(** The theorem at [setRadius(2)], [setDimensions(2, 3)] and
    [setSides(3, 4, 5)], as the test suite calls them, and at
    [setSides(NaN, 1, 1)] on the triangle 3, 4, 5. *)
Example setter_validity_witness :
  Circle.isValid (snd (Circle.setRadius (of_int 2)
                         {| Circle.radius_ := of_int 1 |})) = true /\
  Rectangle.isValid
    (snd (Rectangle.setDimensions (of_int 2) (of_int 3)
            {| Rectangle.width_ := of_int 1;
               Rectangle.height_ := of_int 1 |})) = true /\
  Triangle.isValid
    (snd (Triangle.setSides (of_int 3) (of_int 4) (of_int 5) (tri 1 1 1)))
  = true /\
  fst (Triangle.setSides NaN (of_int 1) (of_int 1) (tri 3 4 5)) = Returns tt /\
  Triangle.isValid
    (snd (Triangle.setSides NaN (of_int 1) (of_int 1) (tri 3 4 5))) = false /\
  InvalidParameter (Triangle.Triangle NaN (of_int 1) (of_int 1)).
Proof.
  destruct setter_validity as (HC & HR & HT & _ & _ & HN).
  split; [|split; [|split]].
  - apply (HC (of_int 2)); reflexivity.
  - apply (HR (of_int 2) (of_int 3)); reflexivity.
  - apply (HT (of_int 3) (of_int 4) (of_int 5)); reflexivity.
  - apply (HN NaN (of_int 1) (of_int 1) (tri 3 4 5)); reflexivity.
Defined.

(** ** Constructors and setters agree *)

(** The Triangle constructor accepts no triple that [setSides] refuses. *)
Lemma triangle_violation_rejected (a b c : double) :
  triangle_violation a b c = true -> triangle_rejected a b c = true.
Proof.
  intros V.
  destruct (is_nan a || is_nan b || is_nan c) eqn:N.
  - exact (triangle_rejected_nan a b c N).
  - apply orb_false_elim in N as [N Nc].
    apply orb_false_elim in N as [Na Nb].
    now rewrite triangle_rejected_violation.
Qed.

(** X3: a setter called with the parameters of a successful construction
    returns and leaves exactly the constructed instance, whatever the
    object held before.  For Circle and Rectangle the converse holds too,
    and constructor and setter throw the same exception; for the Triangle
    the converse holds when no side is NaN. *)
Theorem setter_agrees_with_constructor :
  (forall radius self c,
      Circle.Circle radius = Returns c <->
      Circle.setRadius radius self = (Returns tt, c)) /\
  (forall radius self e,
      Circle.Circle radius = Throws e <->
      Circle.setRadius radius self = (Throws e, self)) /\
  (forall width height self x,
      Rectangle.Rectangle width height = Returns x <->
      Rectangle.setDimensions width height self = (Returns tt, x)) /\
  (forall width height self e,
      Rectangle.Rectangle width height = Throws e <->
      Rectangle.setDimensions width height self = (Throws e, self)) /\
  (forall a b c self x,
      Triangle.Triangle a b c = Returns x ->
      Triangle.setSides a b c self = (Returns tt, x)) /\
  (forall a b c self x,
      is_nan a = false -> is_nan b = false -> is_nan c = false ->
      Triangle.setSides a b c self = (Returns tt, x) ->
      Triangle.Triangle a b c = Returns x).
Proof.
  repeat split.
  - unfold Circle.Circle, Circle.setRadius.
    destruct (radius <= of_int 0); [discriminate|].
    intros H; injection H as <-; reflexivity.
  - unfold Circle.Circle, Circle.setRadius.
    destruct (radius <= of_int 0); [discriminate|].
    intros H; injection H as <-; reflexivity.
  - unfold Circle.Circle, Circle.setRadius.
    destruct (radius <= of_int 0); [|discriminate].
    intros H; injection H as <-; reflexivity.
  - unfold Circle.Circle, Circle.setRadius.
    destruct (radius <= of_int 0); [|discriminate].
    intros H; injection H as <-; reflexivity.
  - unfold Rectangle.Rectangle, Rectangle.setDimensions.
    destruct ((width <= of_int 0) || (height <= of_int 0)); [discriminate|].
    intros H; injection H as <-; reflexivity.
  - unfold Rectangle.Rectangle, Rectangle.setDimensions.
    destruct ((width <= of_int 0) || (height <= of_int 0)); [discriminate|].
    intros H; injection H as <-; reflexivity.
  - unfold Rectangle.Rectangle, Rectangle.setDimensions.
    destruct ((width <= of_int 0) || (height <= of_int 0)); [|discriminate].
    intros H; injection H as <-; reflexivity.
  - unfold Rectangle.Rectangle, Rectangle.setDimensions.
    destruct ((width <= of_int 0) || (height <= of_int 0)); [|discriminate].
    intros H; injection H as <-; reflexivity.
  - intros a b c self x; rewrite Triangle_ctor_unfold, setSides_unfold.
    destruct (triangle_violation a b c) eqn:V.
    + now rewrite (triangle_violation_rejected a b c V).
    + destruct (triangle_rejected a b c); [discriminate|].
      intros H; injection H as <-; reflexivity.
  - intros a b c self x Na Nb Nc.
    rewrite Triangle_ctor_unfold, setSides_unfold.
    rewrite (triangle_rejected_violation a b c Na Nb Nc).
    destruct (triangle_violation a b c); [discriminate|].
    intros H; injection H as <-; reflexivity.
Qed.

(** The theorem at the sides 3, 4, 5 set on an equilateral triangle. *)
Example setter_agrees_with_constructor_witness :
  Triangle.setSides (of_int 3) (of_int 4) (of_int 5) (tri 1 1 1)
  = (Returns tt, tri 3 4 5) /\
  Triangle.Triangle (of_int 3) (of_int 4) (of_int 5) = Returns (tri 3 4 5).
Proof.
  destruct setter_agrees_with_constructor as (_ & _ & _ & _ & H1 & H2).
  split.
  - apply H1; reflexivity.
  - apply (H2 _ _ _ (tri 1 1 1)); reflexivity.
Defined.

(** ** Infinite and NaN sides *)

Lemma positive_below_finite (x y : double) :
  (x > of_int 0) = true -> (y > x) = true -> is_finite x = true.
Proof.
  rewrite of_int_0; unfold gtb.
  destruct x as [s|s| |s m e]; try discriminate; try reflexivity.
  destruct s; try discriminate; intros _ H.
  destruct y as [[]|[]| |[] ? ?]; discriminate H.
Qed.

Lemma valid_sides_finite (x : Triangle.t) :
  Triangle.isValid x = true ->
  is_finite (Triangle.side_a_ x) = true /\
  is_finite (Triangle.side_b_ x) = true /\
  is_finite (Triangle.side_c_ x) = true.
Proof.
  intros V.
  unfold Triangle.isValid, Triangle.satisfiesTriangleInequality in V.
  split_andb.
  repeat split; eapply positive_below_finite; eassumption.
Qed.

(** X4: the three sides of a valid Triangle are finite numbers, and the
    constructor throws as soon as a side is an infinity or NaN; a Circle
    of infinite radius, in contrast, is constructed and valid. *)
Theorem triangle_sides_finite :
  (forall x : Triangle.t,
      Triangle.isValid x = true ->
      is_finite (Triangle.side_a_ x) = true /\
      is_finite (Triangle.side_b_ x) = true /\
      is_finite (Triangle.side_c_ x) = true) /\
  (forall a b c,
      is_finite a && is_finite b && is_finite c = false ->
      InvalidParameter (Triangle.Triangle a b c)) /\
  (exists c, Circle.Circle (S754_infinity false) = Returns c /\
             Circle.isValid c = true /\
             Circle.area c = S754_infinity false).
Proof.
  split; [exact valid_sides_finite|split].
  - intros a b c F.
    destruct (Triangle.Triangle a b c) as [x|[what]] eqn:E;
      [exfalso|auto with shapes].
    pose proof (Triangle_constructed_isValid a b c x E) as V.
    apply (Triangle_constructs a b c) in E; subst x.
    destruct (valid_sides_finite _ V) as (Fa & Fb & Fc).
    cbn [Triangle.side_a_ Triangle.side_b_ Triangle.side_c_] in *.
    now rewrite Fa, Fb, Fc in F.
  - eexists; repeat split; reflexivity.
Qed.

(** The theorem at the sides 3, 4, 5 and at an infinite first side. *)
Example triangle_sides_finite_witness :
  is_finite (of_int 3) = true /\
  InvalidParameter
    (Triangle.Triangle (S754_infinity false) (of_int 4) (of_int 5)).
Proof.
  destruct triangle_sides_finite as (HV & HI & _).
  split.
  - apply (HV (tri 3 4 5)); reflexivity.
  - apply HI; reflexivity.
Defined.

(** ** Areas and perimeters are not negative *)

Lemma binary_round_aux_nonneg (m e : Z) (l : location) :
  (0 <= m)%Z -> is_nonneg (binary_round_aux prec emax false m e l) = true.
Proof.
  intros H.
  pose proof (binary_round_aux_not_nan false m e l H) as N.
  unfold binary_round_aux in *.
  destruct (shr_fexp prec emax m e l) as [mrs' e'].
  destruct (shr_fexp prec emax _ e' loc_Exact) as [mrs'' e''].
  destruct (shr_m mrs'') as [|p|p]; try reflexivity; [|discriminate N].
  destruct (e'' <=? emax - prec)%Z; reflexivity.
Qed.

Lemma mul_nonneg_finite (y : double) (m : positive) (e : Z) :
  is_nonneg y = true -> is_nonneg (y * S754_finite false m e) = true.
Proof.
  destruct y as [s|[]| |[] my ey]; try discriminate; intros _;
    try reflexivity.
  apply binary_round_aux_nonneg; lia.
Qed.

Lemma mul_finite_nonneg (y : double) (m : positive) (e : Z) :
  is_nonneg y = true -> is_nonneg (S754_finite false m e * y) = true.
Proof.
  destruct y as [s|[]| |[] my ey]; try discriminate; intros _;
    try reflexivity.
  apply binary_round_aux_nonneg; lia.
Qed.

Lemma add_nonneg (x y : double) :
  is_nonneg x = true -> is_nonneg y = true -> is_nonneg (x + y) = true.
Proof.
  destruct x as [sx|[]| |[] mx ex]; try discriminate;
    destruct y as [sy|[]| |[] my ey]; try discriminate; intros _ _;
    try reflexivity.
  - destruct sx, sy; reflexivity.
  - unfold add, SFadd; cbn [cond_Zopp].
    rewrite <- Pos2Z.inj_add; cbn [binary_normalize].
    unfold binary_round; destruct (shl_align _ _ _) as [mz ez].
    apply binary_round_aux_nonneg; lia.
Qed.

Lemma Zsqrtrem_fst_nonneg (n : Z) : (0 <= fst (Z.sqrtrem n))%Z.
Proof.
  destruct n as [|p|p]; cbn; try lia.
  destruct (Pos.sqrtrem p) as [s [|r|]]; cbn; lia.
Qed.

(** A square root is NaN or not negative. *)
Lemma sqrt_nonneg_or_nan (x : double) :
  is_nonneg (sqrt x) || is_nan (sqrt x) = true.
Proof.
  destruct x as [s|[]| |[] m e]; try reflexivity.
  unfold sqrt, SFsqrt, SFsqrt_core_binary.
  match goal with
  | |- context [Z.sqrtrem ?n] =>
      pose proof (Zsqrtrem_fst_nonneg n) as H;
        destruct (Z.sqrtrem n) as [q r]
  end.
  cbn [fst] in H; rewrite binary_round_aux_nonneg by exact H; reflexivity.
Qed.

Lemma nonneg_leb_zero (x : double) :
  is_nonneg x = true -> (of_int 0 <= x) = true.
Proof. destruct x as [s|[]| |[] m e]; try discriminate; reflexivity. Qed.

Lemma nonneg_or_nan_not_negative (x : double) :
  is_nonneg x || is_nan x = true -> (x < of_int 0) = false.
Proof. destruct x as [s|[]| |[] m e]; try discriminate; reflexivity. Qed.

Lemma positive_cases (x : double) :
  (x > of_int 0) = true ->
  x = S754_infinity false \/ exists m e, x = S754_finite false m e.
Proof.
  rewrite of_int_0; unfold gtb.
  destruct x as [s|[]| |[] m e]; try discriminate; eauto.
Qed.

Lemma positive_nonneg (x : double) :
  (x > of_int 0) = true -> is_nonneg x = true.
Proof. intros H; destruct (positive_cases x H) as [->|(m & e & ->)]; reflexivity. Qed.

Lemma Circle_valid_nonneg (c : Circle.t) :
  Circle.isValid c = true ->
  is_nonneg (Circle.area c) = true /\ is_nonneg (Circle.perimeter c) = true.
Proof.
  unfold Circle.isValid, Circle.area, Circle.perimeter; intros V.
  destruct (positive_cases _ V) as [->|(m & e & ->)];
    [split; reflexivity|].
  split.
  - apply mul_nonneg_finite, mul_nonneg_finite; reflexivity.
  - apply mul_nonneg_finite; reflexivity.
Qed.

Lemma Rectangle_valid_nonneg (x : Rectangle.t) :
  Rectangle.isValid x = true ->
  is_nonneg (Rectangle.area x) = true /\
  is_nonneg (Rectangle.perimeter x) = true.
Proof.
  unfold Rectangle.isValid, Rectangle.area, Rectangle.perimeter; intros V.
  apply andb_prop in V as [W H].
  pose proof (positive_nonneg _ W) as NW.
  pose proof (positive_nonneg _ H) as NH.
  split.
  - destruct (positive_cases _ H) as [->|(m & e & ->)].
    + destruct (positive_cases _ W) as [->|(m & e & ->)]; reflexivity.
    + now apply mul_nonneg_finite.
  - change (of_int 2) with (S754_finite false 4503599627370496 (-51)).
    now apply mul_finite_nonneg, add_nonneg.
Qed.

Lemma Triangle_valid_nonneg (x : Triangle.t) :
  Triangle.isValid x = true ->
  is_nonneg (Triangle.area x) || is_nan (Triangle.area x) = true /\
  is_nonneg (Triangle.perimeter x) = true.
Proof.
  intros V; split; [apply sqrt_nonneg_or_nan|].
  unfold Triangle.isValid in V; split_andb.
  unfold Triangle.perimeter.
  repeat apply add_nonneg; now apply positive_nonneg.
Qed.

(** X5: for every valid shape, [perimeter()] is [>= 0] and [area()] is
    never negative; for a valid Circle or Rectangle [area()] is [>= 0],
    while for a Triangle it is [>= 0] or NaN. *)
Theorem valid_shape_measures (s : Shape.t) :
  Shape.isValid s = true ->
  (of_int 0 <= Shape.perimeter s) = true /\
  (Shape.area s < of_int 0) = false /\
  ((forall x, s <> Shape.triangle x) -> (of_int 0 <= Shape.area s) = true).
Proof.
  destruct s as [c|r|x]; cbn [Shape.isValid Shape.area Shape.perimeter];
    intros V.
  - destruct (Circle_valid_nonneg c V) as [A P].
    split; [|split].
    + now apply nonneg_leb_zero.
    + apply nonneg_or_nan_not_negative; now rewrite A.
    + intros _; now apply nonneg_leb_zero.
  - destruct (Rectangle_valid_nonneg r V) as [A P].
    split; [|split].
    + now apply nonneg_leb_zero.
    + apply nonneg_or_nan_not_negative; now rewrite A.
    + intros _; now apply nonneg_leb_zero.
  - destruct (Triangle_valid_nonneg x V) as [A P].
    split; [|split].
    + now apply nonneg_leb_zero.
    + now apply nonneg_or_nan_not_negative.
    + intros H; now destruct (H x).
Qed.

(** The theorem at the rectangle of sides 3 and 4. *)
Example valid_shape_measures_witness :
  let s := Shape.rectangle {| Rectangle.width_ := of_int 3;
                              Rectangle.height_ := of_int 4 |} in
  (of_int 0 <= Shape.perimeter s) = true /\
  (Shape.area s < of_int 0) = false /\
  (of_int 0 <= Shape.area s) = true.
Proof.
  intros s.
  destruct (valid_shape_measures s eq_refl) as (P & A & N).
  split; [exact P|split; [exact A|]].
  apply N; intros x H; discriminate H.
Defined.

(** ** States of the aggregator *)

Lemma reachable_all_valid (self : t) :
  reachable self -> Forall (fun s => Shape.isValid s = true) (shapes_ self).
Proof.
  induction 1 as [|shape self R IH|self R IH].
  - constructor.
  - rewrite addShape_unfold; cbn [snd].
    destruct shape as [s|]; [|exact IH].
    destruct (Shape.isValid s) eqn:V; [|exact IH].
    cbn [shapes_]; apply Forall_app; split; [exact IH|].
    constructor; [exact V|constructor].
  - constructor.
Qed.

Lemma getShape_In (i : nat) (self : t) (s : Shape.t) :
  getShape i self = Some s -> In s (shapes_ self).
Proof.
  unfold getShape.
  destruct (List.length (shapes_ self) <=? i)%nat; [discriminate|].
  apply nth_error_In.
Qed.

(** X6: in every state reached from a new calculator by [addShape] and
    [clear], every stored shape is valid: whatever [getShape] returns
    satisfies [isValid()], and has a perimeter [>= 0] and an area that is
    not negative. *)
Theorem reachable_shapes_valid (self : t) :
  reachable self ->
  forall i s, getShape i self = Some s ->
              Shape.isValid s = true /\
              (of_int 0 <= Shape.perimeter s) = true /\
              (Shape.area s < of_int 0) = false.
Proof.
  intros R i s G.
  pose proof (reachable_all_valid self R) as F.
  rewrite Forall_forall in F.
  pose proof (F s (getShape_In i self s G)) as V.
  destruct s as [c|r|x]; cbn [Shape.isValid Shape.area Shape.perimeter] in *.
  - destruct (Circle_valid_nonneg c V) as [A P].
    split; [exact V|split; [now apply nonneg_leb_zero|]].
    apply nonneg_or_nan_not_negative; now rewrite A.
  - destruct (Rectangle_valid_nonneg r V) as [A P].
    split; [exact V|split; [now apply nonneg_leb_zero|]].
    apply nonneg_or_nan_not_negative; now rewrite A.
  - destruct (Triangle_valid_nonneg x V) as [A P].
    split; [exact V|split; [now apply nonneg_leb_zero|]].
    now apply nonneg_or_nan_not_negative.
Qed.

(** The theorem after a NaN circle, which is dropped, and a triangle. *)
Example reachable_shapes_valid_witness :
  let calc :=
    snd (addShape (Some (Shape.triangle (tri 3 4 5)))
           (snd (addShape (Some (Shape.circle {| Circle.radius_ := NaN |}))
                          GeometryCalculator))) in
  getShape 0 calc = Some (Shape.triangle (tri 3 4 5)) /\
  Shape.isValid (Shape.triangle (tri 3 4 5)) = true.
Proof.
  intros calc; split; [reflexivity|].
  apply (reachable_shapes_valid calc
           (reach_addShape _ _ (reach_addShape _ _ reach_new))
           0 (Shape.triangle (tri 3 4 5)) eq_refl).
Defined.

Lemma loop_nonneg (f : Shape.t -> double) (l : list Shape.t) :
  Forall (fun s => is_nonneg (f s) = true) l ->
  forall total, is_nonneg total = true ->
    is_nonneg (fold_left (fun total shape => total + f shape) l total) = true.
Proof.
  induction 1 as [|s l H F IH]; intros total T; cbn [fold_left];
    [exact T|].
  apply IH, add_nonneg; assumption.
Qed.

Lemma add_nonneg_or_nan (x y : double) :
  is_nonneg x || is_nan x = true -> is_nonneg y || is_nan y = true ->
  is_nonneg (x + y) || is_nan (x + y) = true.
Proof.
  intros X Y.
  destruct (is_nan x) eqn:Nx; [destruct x; try discriminate; reflexivity|].
  destruct (is_nan y) eqn:Ny.
  { destruct y; try discriminate; destruct x; reflexivity. }
  rewrite orb_false_r in X, Y.
  now rewrite add_nonneg.
Qed.

Lemma loop_nonneg_or_nan (f : Shape.t -> double) (l : list Shape.t) :
  Forall (fun s => is_nonneg (f s) || is_nan (f s) = true) l ->
  forall total, is_nonneg total || is_nan total = true ->
    let r := fold_left (fun total shape => total + f shape) l total in
    is_nonneg r || is_nan r = true.
Proof.
  induction 1 as [|s l H F IH]; intros total T; cbn [fold_left];
    [exact T|].
  apply IH, add_nonneg_or_nan; assumption.
Qed.

(** X7: in every reachable state [totalPerimeter()] is [>= 0] and
    [totalArea()] is never negative (it is [>= 0] or, when the area of a
    stored triangle is NaN, NaN). *)
Theorem reachable_totals (self : t) :
  reachable self ->
  (of_int 0 <= totalPerimeter self) = true /\
  (totalArea self < of_int 0) = false.
Proof.
  intros R; pose proof (reachable_all_valid self R) as F; split.
  - apply nonneg_leb_zero, loop_nonneg; [|reflexivity].
    eapply Forall_impl; [|exact F].
    intros [c|r|x] V; cbn [Shape.isValid Shape.perimeter] in *.
    + apply (Circle_valid_nonneg c V).
    + apply (Rectangle_valid_nonneg r V).
    + apply (Triangle_valid_nonneg x V).
  - apply nonneg_or_nan_not_negative.
    apply (loop_nonneg_or_nan Shape.area); [|reflexivity].
    eapply Forall_impl; [|exact F].
    intros [c|r|x] V; cbn [Shape.isValid Shape.area] in *.
    + destruct (Circle_valid_nonneg c V) as [-> _]; reflexivity.
    + destruct (Rectangle_valid_nonneg r V) as [-> _]; reflexivity.
    + apply (Triangle_valid_nonneg x V).
Qed.

(** The theorem after inserting the triangle of sides 3, 4, 5. *)
Example reachable_totals_witness :
  let calc :=
    snd (addShape (Some (Shape.triangle (tri 3 4 5))) GeometryCalculator) in
  (of_int 0 <= totalPerimeter calc) = true /\
  (totalArea calc < of_int 0) = false.
Proof.
  intros calc.
  apply (reachable_totals calc (reach_addShape _ _ reach_new)).
Defined.

(** ** Sequences of insertions and lookups *)

Lemma addShapes_shapes (l : list (option Shape.t)) :
  forall self, shapes_ (addShapes l self) = shapes_ self ++ accepted l.
Proof.
  unfold addShapes, accepted.
  induction l as [|shape l IH]; intros self; cbn [fold_left flat_map].
  - now rewrite app_nil_r.
  - rewrite IH, addShape_unfold; cbn [snd].
    destruct shape as [s|]; [|reflexivity].
    destruct (Shape.isValid s); [|reflexivity].
    cbn [shapes_]; now rewrite <- app_assoc.
Qed.

(** X8: calling [addShape] on a list of pointers, in turn, appends to the
    collection exactly the non-null valid shapes of the list, in their
    order: [shapeCount()] grows by their number, they are found by
    [getShape] right after the shapes held before, and after [clear()]
    the collection holds them and nothing else. *)
Theorem addShapes_accepted (l : list (option Shape.t)) (self : t) :
  shapes_ (addShapes l self) = shapes_ self ++ accepted l /\
  shapeCount (addShapes l self)
  = (shapeCount self + List.length (accepted l))%nat /\
  (forall i, getShape (shapeCount self + i) (addShapes l self)
             = nth_error (accepted l) i) /\
  (forall i, (i < shapeCount self)%nat ->
             getShape i (addShapes l self) = getShape i self) /\
  shapes_ (addShapes l (snd (clear self))) = accepted l.
Proof.
  pose proof (addShapes_shapes l self) as E.
  split; [exact E|split; [|split; [|split]]].
  - unfold shapeCount; rewrite E; apply length_app.
  - intros i; unfold getShape, shapeCount; rewrite E, length_app.
    destruct (Nat.leb_spec (List.length (shapes_ self)
                            + List.length (accepted l))
                           (List.length (shapes_ self) + i)) as [L|L].
    + symmetry; apply nth_error_None; lia.
    + rewrite nth_error_app2 by lia. f_equal; lia.
  - intros i Hi; unfold getShape, shapeCount in *; rewrite E, length_app.
    destruct (Nat.leb_spec (List.length (shapes_ self)
                            + List.length (accepted l)) i) as [L|L];
      [lia|].
    destruct (Nat.leb_spec (List.length (shapes_ self)) i) as [L'|L'];
      [lia|].
    now apply nth_error_app1.
  - now rewrite addShapes_shapes.
Qed.

(** The insertion of a null pointer, a NaN circle and a triangle into a
    collection of one rectangle. *)
Example addShapes_accepted_witness :
  let r := Shape.rectangle {| Rectangle.width_ := of_int 3;
                              Rectangle.height_ := of_int 4 |} in
  let self := {| shapes_ := [r] |} in
  let l := [None; Some (Shape.circle {| Circle.radius_ := NaN |});
            Some (Shape.triangle (tri 3 4 5))] in
  getShape 0 (addShapes l self) = Some r /\
  getShape 1 (addShapes l self) = Some (Shape.triangle (tri 3 4 5)) /\
  shapeCount (addShapes l self) = 2%nat.
Proof.
  intros r self l.
  destruct (addShapes_accepted l self) as (_ & C & G & K & _).
  split; [|split].
  - rewrite (K 0%nat); [reflexivity|unfold shapeCount; cbn; lia].
  - exact (G 0%nat).
  - exact C.
Defined.

(** ** The classification and the order of the sides *)

Lemma abs_binary_round_aux (s s' : bool) (m e : Z) (l : location) :
  abs (binary_round_aux prec emax s m e l)
  = abs (binary_round_aux prec emax s' m e l).
Proof.
  unfold binary_round_aux.
  destruct (shr_fexp prec emax m e l) as [mrs' e'].
  destruct (shr_fexp prec emax _ e' loc_Exact) as [mrs'' e''].
  destruct (shr_m mrs'') as [|p|p]; try reflexivity.
  destruct (e'' <=? emax - prec)%Z; reflexivity.
Qed.

Lemma abs_binary_normalize_opp (m e : Z) :
  abs (binary_normalize prec emax (- m) e false)
  = abs (binary_normalize prec emax m e false).
Proof.
  destruct m as [|p|p]; cbn [Z.opp binary_normalize]; try reflexivity;
    unfold binary_round; destruct (shl_align p e _) as [mz ez];
    apply abs_binary_round_aux.
Qed.

(** The distance of two doubles does not depend on their order. *)
Lemma abs_sub_comm (x y : double) : abs (x - y) = abs (y - x).
Proof.
  destruct x as [sx|sx| |sx mx ex]; destruct y as [sy|sy| |sy my ey];
    try reflexivity; try (destruct sx, sy; reflexivity).
  unfold sub, SFsub.
  rewrite (Z.min_comm ey ex), <- abs_binary_normalize_opp.
  do 2 f_equal; lia.
Qed.

(** X9: [isIsosceles()] does not depend on the order in which the three
    sides are stored, and [isEquilateral()] is unchanged when the order is
    reversed; but [isEquilateral()] and [name()] do depend on the order:
    the sides [drift_a], [drift_b], [drift_c] are an equilateral triangle
    in this order and an isosceles one when the first two are swapped. *)
Theorem classification_and_order :
  (forall a b c,
      let iso x y z :=
        Triangle.isIsosceles {| Triangle.side_a_ := x; Triangle.side_b_ := y;
                                Triangle.side_c_ := z |} in
      iso a b c = iso b a c /\ iso a b c = iso a c b /\
      iso a b c = iso c b a /\ iso a b c = iso b c a /\
      iso a b c = iso c a b) /\
  (forall a b c,
      Triangle.isEquilateral {| Triangle.side_a_ := a; Triangle.side_b_ := b;
                                Triangle.side_c_ := c |}
      = Triangle.isEquilateral {| Triangle.side_a_ := c;
                                  Triangle.side_b_ := b;
                                  Triangle.side_c_ := a |}) /\
  (Triangle.Triangle drift_a drift_b drift_c = Returns drift /\
   Triangle.name drift = "Equilateral Triangle" /\
   exists swapped,
     Triangle.Triangle drift_b drift_a drift_c = Returns swapped /\
     Triangle.name swapped = "Isosceles Triangle").
Proof.
  split; [|split].
  - intros a b c; unfold Triangle.isIsosceles;
      cbn [Triangle.side_a_ Triangle.side_b_ Triangle.side_c_].
    rewrite (abs_sub_comm b a), (abs_sub_comm c b), (abs_sub_comm c a).
    repeat split;
      destruct (abs (a - b) < epsilon), (abs (b - c) < epsilon),
        (abs (a - c) < epsilon); reflexivity.
  - intros a b c; unfold Triangle.isEquilateral;
      cbn [Triangle.side_a_ Triangle.side_b_ Triangle.side_c_].
    rewrite (abs_sub_comm c b), (abs_sub_comm b a); apply andb_comm.
  - split; [reflexivity|split; [reflexivity|]].
    eexists; split; reflexivity.
Qed.

(** ** The report *)

Lemma string_append_assoc (a b c : string) :
  ((a ++ b) ++ c = a ++ (b ++ c))%string.
Proof. induction a as [|ch a IH]; cbn; [reflexivity|now rewrite IH]. Qed.

Lemma string_append_nil_r (a : string) : (a ++ "")%string = a.
Proof. induction a as [|ch a IH]; cbn; [reflexivity|now rewrite IH]. Qed.

Lemma occurs_in_append_l (needle a b : string) :
  occurs_in needle a -> occurs_in needle (a ++ b)%string.
Proof.
  intros (pre & post & ->); exists pre, (post ++ b)%string.
  now rewrite !string_append_assoc.
Qed.

Lemma occurs_in_append_r (needle a b : string) :
  occurs_in needle b -> occurs_in needle (a ++ b)%string.
Proof.
  intros (pre & post & ->); exists (a ++ pre)%string, post.
  now rewrite !string_append_assoc.
Qed.

Lemma occurs_in_trans (x y z : string) :
  occurs_in x y -> occurs_in y z -> occurs_in x z.
Proof.
  intros H (pre & post & ->).
  now apply occurs_in_append_r, occurs_in_append_l.
Qed.

(** The loop only appends to the stream. *)
Lemma write_shapes_append (show_double : double -> string)
      (l : list Shape.t) :
  forall oss i,
    write_shapes show_double oss i l
    = (oss ++ write_shapes show_double "" i l)%string.
Proof.
  induction l as [|s l IH]; intros oss i; cbn [write_shapes].
  - now rewrite string_append_nil_r.
  - rewrite (IH (write_shape show_double oss i s)),
      (IH (write_shape show_double "" i s)).
    unfold write_shape; cbn [append].
    now rewrite string_append_assoc.
Qed.

Lemma write_shapes_lines (show_double : double -> string)
      (l : list Shape.t) :
  forall oss i k s,
    nth_error l k = Some s ->
    occurs_in (shape_lines show_double (i + k) s)
              (write_shapes show_double oss i l).
Proof.
  induction l as [|s0 l IH]; intros oss i k s H.
  - destruct k; discriminate H.
  - destruct k as [|k]; cbn [nth_error write_shapes] in *.
    + injection H as ->. rewrite Nat.add_0_r, write_shapes_append.
      apply occurs_in_append_l.
      change (write_shape show_double oss i s)
        with (oss ++ shape_lines show_double i s)%string.
      exists oss, ""%string.
      now rewrite string_append_nil_r.
    + replace (i + S k)%nat with (S i + k)%nat by lia.
      now apply IH.
Qed.

Lemma name_in_shape_lines (show_double : double -> string) (i : nat)
      (s : Shape.t) :
  occurs_in (Shape.name s) (shape_lines show_double i s).
Proof.
  unfold shape_lines.
  apply occurs_in_append_r, occurs_in_append_r, occurs_in_append_r.
  apply occurs_in_append_l.
  exists ""%string, ""%string; cbn.
  now rewrite string_append_nil_r.
Qed.

(** X10: whatever the formatting of doubles, the report starts with the
    title line and the line of the count [shapeCount()], holds for every
    index [i] in range the three lines of the shape [getShape(i)] returns,
    numbered [i + 1] and with its [name()], and ends with the totals
    section carrying [totalArea()] and [totalPerimeter()]. *)
Theorem getShapesInfo_content (show_double : double -> string) (self : t) :
  let info := getShapesInfo show_double self in
  (exists rest,
      info = ("=== Geometry Calculator Results ===" ++ newline
              ++ "Total shapes: " ++ show_size_t (shapeCount self)
              ++ newline ++ newline ++ rest)%string) /\
  (forall i s,
      getShape i self = Some s ->
      occurs_in (shape_lines show_double i s) info /\
      occurs_in (Shape.name s) info) /\
  (exists before,
      info = (before ++ "Totals:" ++ newline
              ++ "  Total Area: " ++ show_double (totalArea self) ++ newline
              ++ "  Total Perimeter: " ++ show_double (totalPerimeter self)
              ++ newline)%string).
Proof.
  intros info; subst info; unfold getShapesInfo; cbv zeta.
  split; [|split].
  - rewrite write_shapes_append.
    eexists. unfold shapeCount.
    rewrite !string_append_assoc. reflexivity.
  - intros i s G.
    assert (N : nth_error (shapes_ self) i = Some s).
    { unfold getShape in G.
      now destruct (List.length (shapes_ self) <=? i)%nat. }
    assert (O : occurs_in (shape_lines show_double i s)
                  (getShapesInfo show_double self)).
    { unfold getShapesInfo; cbv zeta.
      do 3 apply occurs_in_append_l.
      exact (write_shapes_lines show_double (shapes_ self) _ 0 i s N). }
    split; [exact O|].
    exact (occurs_in_trans _ _ _ (name_in_shape_lines show_double i s) O).
  - rewrite !string_append_assoc. eexists. reflexivity.
Qed.

(** The report of a collection of one circle and one rectangle, as the
    test suite searches it, here with a formatter that prints every
    double as a dash. *)
Example getShapesInfo_content_witness :
  let calc :=
    {| shapes_ := [Shape.circle {| Circle.radius_ := of_int 1 |};
                   Shape.rectangle {| Rectangle.width_ := of_int 2;
                                      Rectangle.height_ := of_int 3 |}] |} in
  occurs_in "Rectangle" (getShapesInfo (fun _ => "-") calc) /\
  show_size_t (shapeCount calc) = "2".
Proof.
  intros calc; split; [|reflexivity].
  destruct (getShapesInfo_content (fun _ => "-") calc) as (_ & H & _).
  exact (proj2 (H 1%nat _ eq_refl)).
Defined.

(** ** The order of the parameters *)

Lemma add_comm (x y : double) : x + y = y + x.
Proof.
  destruct x as [sx|sx| |sx mx ex]; destruct y as [sy|sy| |sy my ey];
    try reflexivity; try (destruct sx, sy; reflexivity).
  unfold add, SFadd.
  now rewrite (Z.min_comm ey ex), Z.add_comm.
Qed.

Lemma mul_comm (x y : double) : x * y = y * x.
Proof.
  destruct x as [sx|sx| |sx mx ex]; destruct y as [sy|sy| |sy my ey];
    try reflexivity; try (destruct sx, sy; reflexivity).
  unfold mul, SFmul.
  now rewrite (xorb_comm sy sx), (Pos.mul_comm my mx), (Z.add_comm ey ex).
Qed.

Lemma same_outcome_if {A : Type} (g g' : bool) (e : exception)
      (o o' : outcome A) :
  g = g' -> same_outcome o o' ->
  same_outcome (if g then Throws e else o) (if g' then Throws e else o').
Proof. intros <- H; destruct g; [reflexivity|exact H]. Qed.

Lemma satisfiesTriangleInequality_swap (a b c : double) :
  Triangle.satisfiesTriangleInequality (with_sides a b c)
  = Triangle.satisfiesTriangleInequality (with_sides b a c) /\
  Triangle.satisfiesTriangleInequality (with_sides a b c)
  = Triangle.satisfiesTriangleInequality (with_sides a c b).
Proof.
  unfold Triangle.satisfiesTriangleInequality, with_sides;
    cbn [Triangle.side_a_ Triangle.side_b_ Triangle.side_c_].
  rewrite (add_comm b a), (add_comm c b).
  split;
    destruct (a + b > c), (b + c > a), (a + c > b); reflexivity.
Qed.

Lemma Triangle_swap (a b c : double) :
  same_outcome (Triangle.Triangle a b c) (Triangle.Triangle b a c) /\
  same_outcome (Triangle.Triangle a b c) (Triangle.Triangle a c b).
Proof.
  destruct (satisfiesTriangleInequality_swap a b c) as [S1 S2].
  unfold Triangle.Triangle; cbv zeta.
  fold (with_sides a b c) (with_sides b a c) (with_sides a c b).
  split; apply same_outcome_if;
    try (destruct (a <= of_int 0), (b <= of_int 0), (c <= of_int 0);
         reflexivity);
    apply same_outcome_if; try exact I; f_equal; assumption.
Qed.

Lemma same_outcome_trans {A : Type} (o1 o2 o3 : outcome A) :
  same_outcome o1 o2 -> same_outcome o2 o3 -> same_outcome o1 o3.
Proof.
  destruct o1, o2, o3; cbn; try tauto; congruence.
Qed.

Lemma Triangle_isValid_swap (a b c : double) :
  Triangle.isValid (with_sides a b c) = Triangle.isValid (with_sides b a c) /\
  Triangle.isValid (with_sides a b c) = Triangle.isValid (with_sides a c b).
Proof.
  destruct (satisfiesTriangleInequality_swap a b c) as [S1 S2].
  unfold Triangle.isValid. rewrite <- S1, <- S2.
  cbn [Triangle.side_a_ Triangle.side_b_ Triangle.side_c_ with_sides].
  split;
    destruct (a > of_int 0), (b > of_int 0), (c > of_int 0); reflexivity.
Qed.

(** X11: a rectangle and the rectangle with width and height exchanged
    are accepted or rejected together and have the same [area()] and
    [perimeter()], as values of [double] (which has a single NaN: the
    payload of a NaN is not modelled); a triangle is accepted or
    rejected, and is valid or not, whatever the order of its three
    sides.  The measures of a triangle do depend on the order: the sides
    [0.1], [0.2], [0.3] are accepted in both orders, with different
    perimeters, a positive area in one order and the area [0] in the
    other. *)
Theorem parameters_and_order :
  (forall w h,
      same_outcome (Rectangle.Rectangle w h) (Rectangle.Rectangle h w) /\
      let r := {| Rectangle.width_ := w; Rectangle.height_ := h |} in
      let r' := {| Rectangle.width_ := h; Rectangle.height_ := w |} in
      Rectangle.area r = Rectangle.area r' /\
      Rectangle.perimeter r = Rectangle.perimeter r' /\
      Rectangle.isValid r = Rectangle.isValid r') /\
  (forall a b c,
      let same x y z :=
        same_outcome (Triangle.Triangle a b c) (Triangle.Triangle x y z) /\
        Triangle.isValid (with_sides a b c)
        = Triangle.isValid (with_sides x y z) in
      same b a c /\ same a c b /\ same c b a /\ same b c a /\ same c a b) /\
  (Triangle.Triangle lit_0_1 lit_0_2 lit_0_3
   = Returns (with_sides lit_0_1 lit_0_2 lit_0_3) /\
   Triangle.Triangle lit_0_3 lit_0_2 lit_0_1
   = Returns (with_sides lit_0_3 lit_0_2 lit_0_1) /\
   Triangle.perimeter (with_sides lit_0_1 lit_0_2 lit_0_3)
   <> Triangle.perimeter (with_sides lit_0_3 lit_0_2 lit_0_1) /\
   (Triangle.area (with_sides lit_0_1 lit_0_2 lit_0_3) > of_int 0) = true /\
   Triangle.area (with_sides lit_0_3 lit_0_2 lit_0_1) = of_int 0).
Proof.
  split; [|split].
  - intros w h; split; [|cbv zeta; split; [|split]].
    + unfold Rectangle.Rectangle; apply same_outcome_if; [|exact I].
      apply orb_comm.
    + apply mul_comm.
    + unfold Rectangle.perimeter;
        cbn [Rectangle.width_ Rectangle.height_].
      now rewrite (add_comm h w).
    + apply andb_comm.
  - intros a b c; cbv zeta.
    destruct (Triangle_swap a b c) as [T1 T2].
    destruct (Triangle_isValid_swap a b c) as [V1 V2].
    destruct (Triangle_swap b a c) as [_ T3].
    destruct (Triangle_isValid_swap b a c) as [_ V3].
    destruct (Triangle_swap a c b) as [T4 _].
    destruct (Triangle_isValid_swap a c b) as [V4 _].
    destruct (Triangle_swap b c a) as [T5 _].
    destruct (Triangle_isValid_swap b c a) as [V5 _].
    assert (T6 := same_outcome_trans _ _ _ T1 T3).
    assert (T7 := same_outcome_trans _ _ _ T2 T4).
    assert (T8 := same_outcome_trans _ _ _ T6 T5).
    repeat split; try assumption; congruence.
  - repeat split; try reflexivity.
    vm_compute; discriminate.
Qed.

(** * The radicand that [area()] computes *)

(** ** Rounding to nearest stays within half a step *)

Section HalfStep.

Local Open Scope Z_scope.

Lemma grid_pos (v : Z) : 0 < grid v.
Proof. unfold grid; apply Z.pow_pos_nonneg; lia. Qed.

Lemma pow2_divide (a b : Z) : 0 <= a <= b -> (2 ^ a | 2 ^ b).
Proof.
  intros H; exists (2 ^ (b - a)).
  rewrite <- Z.pow_add_r by lia; f_equal; lia.
Qed.

Lemma grid_divide_mono (v w : Z) : 0 < v <= w -> (grid v | grid w).
Proof.
  intros H; unfold grid; apply pow2_divide.
  pose proof (Z.log2_le_mono v w ltac:(lia)); lia.
Qed.

Lemma grid_divide_pow (v : Z) : 0 < v -> (grid v | 2 ^ Z.log2 v).
Proof.
  intros H; unfold grid; apply pow2_divide.
  pose proof (Z.log2_nonneg v); lia.
Qed.

Lemma grid_double (a : Z) : 0 < a -> (grid a | a) -> (grid (2 * a) | 2 * a).
Proof.
  intros H D; unfold grid in *.
  rewrite Z.log2_double by lia.
  destruct (Z.le_gt_cases 52 (Z.log2 a)) as [L|L].
  - replace (Z.max (Z.succ (Z.log2 a) - 52) 0)
      with (1 + Z.max (Z.log2 a - 52) 0) by lia.
    rewrite Z.pow_add_r, Z.pow_1_r by lia.
    now apply Z.mul_divide_mono_l.
  - replace (Z.max (Z.log2 a - 52) 0) with 0 in D by lia.
    replace (Z.max (Z.succ (Z.log2 a) - 52) 0) with 0 by lia.
    exists (2 * a); cbn; lia.
Qed.

Lemma multiples_gap (g f d : Z) :
  0 < g -> 2 * (d * g - f * g) < 2 * g -> d <= f.
Proof. intros G H. destruct (Z.le_gt_cases d f); [assumption|nia]. Qed.

(** A rounded value is not below a representable number that the exact
    value is not below. *)
Lemma round_ge (v f d : Z) :
  0 < d <= v -> (grid d | d) -> within_half v f -> d <= f.
Proof.
  intros [D0 DV] Rd [[n ->] H].
  pose proof (grid_pos v) as G.
  assert (L : Z.log2 d <= Z.log2 v) by (apply Z.log2_le_mono; lia).
  destruct (Z.eq_dec (Z.log2 d) (Z.log2 v)) as [E|E].
  - unfold grid in Rd; rewrite E in Rd; fold (grid v) in Rd.
    destruct Rd as [k ->].
    apply Z.mul_le_mono_nonneg_r; [lia|].
    apply (multiples_gap (grid v)); lia.
  - destruct (grid_divide_pow v ltac:(lia)) as [k K].
    destruct (Z.log2_spec v ltac:(lia)) as [Lv _].
    destruct (Z.log2_spec d ltac:(lia)) as [_ Ud].
    assert (2 ^ Z.succ (Z.log2 d) <= 2 ^ Z.log2 v)
      by (apply Z.pow_le_mono_r; lia).
    assert (k <= n) by (apply (multiples_gap (grid v)); lia).
    assert (k * grid v <= n * grid v)
      by (apply Z.mul_le_mono_nonneg_r; lia).
    lia.
Qed.

Lemma grid_pow (n : Z) : 0 <= n -> (grid (2 ^ n) | 2 ^ n).
Proof.
  intros H; unfold grid; rewrite Z.log2_pow2 by lia.
  apply pow2_divide; lia.
Qed.

(** Twice a side is not above the rounded perimeter. *)
Lemma perimeter_ge_twice (a b c q p : Z) :
  0 < a -> 0 < b -> 0 < c -> (grid a | a) -> a < b + c ->
  within_half (a + b) q -> within_half (q + c) p -> 2 * a <= p.
Proof.
  intros A B C Ra T Hq Hp.
  assert (Qa : a <= q) by (apply (round_ge (a + b)); auto; lia).
  pose proof (grid_double a A Ra) as R2.
  destruct (Z.le_gt_cases (2 * a) (q + c)) as [L|L].
  - apply (round_ge (q + c)); auto; lia.
  - assert (Qp : 2 ^ Z.log2 (a + b) <= q).
    { apply (round_ge (a + b)); auto.
      - pose proof (Z.log2_spec (a + b) ltac:(lia)).
        pose proof (Z.log2_nonneg (a + b)).
        assert (0 < 2 ^ Z.log2 (a + b)) by (apply Z.pow_pos_nonneg; lia).
        lia.
      - apply grid_pow, Z.log2_nonneg. }
    assert (L12 : Z.log2 (a + b) <= Z.log2 (q + c)).
    { rewrite <- (Z.log2_pow2 (Z.log2 (a + b))) at 1
        by apply Z.log2_nonneg.
      apply Z.log2_le_mono; lia. }
    assert (G12 : grid (a + b) <= grid (q + c)).
    { unfold grid; apply Z.pow_le_mono_r; lia. }
    assert (D2 : (grid (q + c) | 2 * a)).
    { apply (Z.divide_trans _ (grid (2 * a))); [|exact R2].
      apply grid_divide_mono; lia. }
    destruct Hq as [_ Hq]. destruct Hp as [[n ->] Hp].
    destruct D2 as [k K]. rewrite K.
    pose proof (grid_pos (q + c)) as G.
    apply Z.mul_le_mono_nonneg_r; [lia|].
    apply (multiples_gap (grid (q + c))); lia.
Qed.

Lemma dropped_0 (m : Z) :
  dropped m 0 {| shr_m := m; shr_r := false; shr_s := false |}.
Proof.
  unfold dropped; cbn [shr_m shr_r shr_s].
  change (2 ^ 0) with 1; lia.
Qed.

Lemma dropped_shr_1 (m j : Z) (mrs : shr_record) :
  0 <= j -> 0 <= shr_m mrs -> dropped m j mrs -> dropped m (j + 1) (shr_1 mrs).
Proof.
  intros Hj N ([L U] & R & S).
  pose proof (pow2_pos j Hj) as P.
  destruct mrs as [q r s]; cbn [shr_m shr_r shr_s] in *.
  unfold dropped.
  rewrite Z.pow_add_r, Z.pow_1_r by lia.
  destruct q as [|[p|p|]|p]; cbn [shr_1 shr_m shr_r shr_s]; try lia;
    (split; [lia|split; [intros H; try discriminate H; lia|]]);
    intros H; apply orb_false_elim in H as [Hr Hs];
    specialize (R Hr); specialize (S Hs); lia.
Qed.

Lemma iter_pos_dropped (m : Z) (n : positive) :
  forall j mrs, 0 <= j -> 0 <= shr_m mrs -> dropped m j mrs ->
                0 <= shr_m (iter_pos shr_1 n mrs) /\
                dropped m (j + Zpos n) (iter_pos shr_1 n mrs).
Proof.
  induction n as [n IH|n IH|]; intros j mrs Hj N H; cbn [iter_pos].
  - replace (j + Z.pos n~1) with (j + 1 + Zpos n + Zpos n) by lia.
    destruct (IH (j + 1) (shr_1 mrs)) as [N1 H1];
      [lia|exact (shr_1_nonneg _ N)|now apply dropped_shr_1|].
    apply IH; [lia|exact N1|exact H1].
  - replace (j + Z.pos n~0) with (j + Zpos n + Zpos n) by lia.
    destruct (IH j mrs) as [N1 H1]; auto.
    apply IH; [lia|exact N1|exact H1].
  - split; [exact (shr_1_nonneg _ N)|now apply dropped_shr_1].
Qed.

Lemma shr_fexp_dropped (m : positive) (e : Z) :
  e <= fexp prec emax (digits m + e) ->
  dropped (Zpos m) (fexp prec emax (digits m + e) - e)
          (fst (shr_fexp prec emax (Zpos m) e loc_Exact)).
Proof.
  intros H; unfold shr_fexp, shr; cbn [Zdigits2 shr_record_of_loc].
  fold (digits m).
  destruct (fexp prec emax (digits m + e) - e) as [|k|k] eqn:K;
    cbn [fst snd]; try lia.
  - apply dropped_0.
  - apply (iter_pos_dropped (Zpos m) k 0); [lia|cbn; lia|apply dropped_0].
Qed.

(** Rounding to nearest even adds one to the quotient, or keeps it when
    at most the half was dropped. *)
Lemma round_nearest_even_half (m j : Z) (mrs : shr_record) :
  dropped m j mrs ->
  let q := round_nearest_even (shr_m mrs) (loc_of_shr_record mrs) in
  (q = shr_m mrs \/ q = shr_m mrs + 1) /\ 2 * (m - q * 2 ^ j) <= 2 ^ j.
Proof.
  intros ([L U] & R & S).
  destruct mrs as [q [] []]; cbn [shr_m shr_r shr_s] in *;
    cbn [loc_of_shr_record round_nearest_even].
  - split; [right; reflexivity|lia].
  - specialize (S eq_refl).
    destruct (Z.even q); (split; [auto|lia]).
  - specialize (R eq_refl). split; [auto|lia].
  - specialize (R eq_refl). split; [auto|lia].
Qed.

Lemma log2_units (m : positive) (e : Z) :
  -1074 <= e ->
  Z.log2 (Zpos m * 2 ^ (e + 1074)) = digits m + e + 1073.
Proof.
  intros He. pose proof (units_lt_pow m e He) as [L U].
  pose proof (digits_pos m).
  apply Z.log2_unique; [lia|].
  replace (digits m + e + 1073) with (digits m - 1 + (e + 1074)) by lia.
  replace (Z.succ (digits m - 1 + (e + 1074)))
    with (digits m + (e + 1074)) by lia.
  split; assumption.
Qed.

Lemma grid_units (m : positive) (e : Z) :
  -1074 <= e ->
  grid (Zpos m * 2 ^ (e + 1074))
  = 2 ^ (fexp prec emax (digits m + e) + 1074).
Proof.
  intros He; unfold grid; rewrite log2_units, fexp_eq by exact He.
  f_equal; lia.
Qed.

Lemma binary_round_aux_half (mz : positive) (ez : Z) :
  -1074 <= ez ->
  ez <= fexp prec emax (digits mz + ez) ->
  rounds_to (Zpos mz * 2 ^ (ez + 1074))
            (binary_round_aux prec emax false (Zpos mz) ez loc_Exact).
Proof.
  intros Ez Hk; unfold rounds_to.
  pose proof (digits_pos mz) as Pz.
  pose proof (grid_units mz ez Ez) as GV.
  unfold binary_round_aux.
  destruct (shr_fexp_exact mz ez Hk) as [S1 E1].
  pose proof (shr_fexp_dropped mz ez Hk) as D1. revert S1 E1 D1.
  destruct (shr_fexp prec emax (Zpos mz) ez loc_Exact) as [mrs' e'];
    cbn [fst snd]; intros S1 E1 D1.
  remember (fexp prec emax (digits mz + ez) - ez) as k eqn:Dk.
  assert (K : 0 <= k < digits mz) by (rewrite fexp_eq in *; lia).
  destruct (shifted_quotient mz k mrs' K S1) as (q & Eq & Dq).
  assert (E'k : e' = ez + k) by lia.
  pose proof (pow2_pos k ltac:(lia)) as Pk.
  pose proof (pow2_pos (ez + 1074) ltac:(lia)) as Pe.
  destruct (round_nearest_even_half _ _ _ D1) as [Cr Hr].
  remember (round_nearest_even (shr_m mrs') (loc_of_shr_record mrs'))
    as rq eqn:Erq.
  rewrite Eq in Cr.
  assert (R : exists qr,
             rq = Zpos qr /\ (qr = q \/ qr = (q + 1)%positive) /\
             2 * (Zpos mz - Zpos qr * 2 ^ k) <= 2 ^ k).
  { destruct Cr as [Cr|Cr]; rewrite Cr in Hr |- *.
    - exists q; auto.
    - exists (q + 1)%positive; rewrite Pos2Z.inj_add; auto. }
  clear Cr Hr Erq; destruct R as (qr & -> & Cr & Hr).
  assert (Qr : Zpos q <= Zpos qr) by (destruct Cr; subst; lia).
  assert (Cq : fexp prec emax (digits q + e') = e')
    by (rewrite E1; f_equal; lia).
  assert (E'0 : -1074 <= e') by lia.
  assert (Hk2 : e' <= fexp prec emax (digits qr + e')).
  { pose proof (digits_mono q qr Qr). rewrite fexp_eq in *; lia. }
  destruct (shr_fexp_exact qr e' Hk2) as [S2 E2]; revert S2 E2.
  destruct (shr_fexp prec emax (Zpos qr) e' loc_Exact) as [mrs'' e''];
    cbn [fst snd]; intros S2 E2.
  remember (fexp prec emax (digits qr + e') - e') as k2 eqn:Dk2.
  pose proof (digits_pos qr) as Pqr.
  assert (K2 : 0 <= k2 < digits qr) by (rewrite fexp_eq in *; lia).
  destruct (shifted_quotient qr k2 mrs'' K2 S2) as (q2 & Eq2 & Dq2).
  destruct S2 as (_ & [L2 U2] & _); rewrite Eq2 in L2, U2.
  rewrite Eq2.
  assert (C2 : fexp prec emax (digits q2 + e'') = e'')
    by (rewrite E2; f_equal; lia).
  (* the second shift drops at most one bit, which is zero *)
  assert (X2 : Zpos q2 * 2 ^ k2 = Zpos qr).
  { destruct (Z.eq_dec k2 0) as [->|N2]; [cbn in *; lia|].
    pose proof (digits_bounds q) as [Lq Uq].
    pose proof (digits_bounds qr) as [Lqr Uqr].
    pose proof (digits_pos q) as Pq.
    assert (Dqr : digits q < digits qr) by (rewrite fexp_eq in *; lia).
    assert (2 ^ digits q <= 2 ^ (digits qr - 1))
      by (apply Z.pow_le_mono_r; lia).
    assert (Zpos qr = 2 ^ digits q) by (destruct Cr; subst; lia).
    assert (digits qr = digits q + 1).
    { apply digits_unique.
      replace (digits q + 1 - 1) with (digits q) by lia.
      rewrite Z.pow_add_r, Z.pow_1_r by lia. lia. }
    assert (K21 : k2 = 1) by (rewrite fexp_eq in *; lia).
    rewrite K21, Z.pow_1_r in L2, U2 |- *.
    assert (2 ^ digits q = 2 * 2 ^ (digits q - 1))
      by (rewrite <- Z.pow_succ_r by lia; f_equal; lia).
    lia. }
  destruct (Z.leb_spec e'' (emax - prec)) as [Fin|Inf]; [right|left; reflexivity].
  exists q2, e''; split; [reflexivity|split].
  - unfold bounded, canonical_mantissa. fold (digits q2).
    rewrite C2, Z.eqb_refl. now apply Z.leb_le.
  - unfold within_half; rewrite GV.
    assert (Ee : 2 ^ (e'' + 1074) = 2 ^ k2 * 2 ^ (e' + 1074))
      by (rewrite <- Z.pow_add_r by lia; f_equal; lia).
    assert (Ee' : 2 ^ (e' + 1074) = 2 ^ k * 2 ^ (ez + 1074))
      by (rewrite <- Z.pow_add_r by lia; f_equal; lia).
    replace (fexp prec emax (digits mz + ez)) with e' by lia.
    split.
    + exists (Zpos qr). rewrite Ee, <- X2; ring.
    + rewrite Ee, Z.mul_assoc, X2, Ee'.
      replace (2 * (Zpos mz * 2 ^ (ez + 1074)
                    - Zpos qr * (2 ^ k * 2 ^ (ez + 1074))))
        with (2 * (Zpos mz - Zpos qr * 2 ^ k) * 2 ^ (ez + 1074)) by ring.
      apply Z.mul_le_mono_nonneg_r; lia.
Qed.

Lemma binary_round_half (m : positive) (e : Z) :
  -1074 <= e ->
  rounds_to (Zpos m * 2 ^ (e + 1074)) (binary_round prec emax false m e).
Proof.
  intros He; unfold binary_round.
  fold (digits m).
  assert (F0 : -1074 <= fexp prec emax (digits m + e))
    by (rewrite fexp_eq; lia).
  unfold shl_align.
  destruct (fexp prec emax (digits m + e) - e) as [|d|d] eqn:D.
  - apply binary_round_aux_half; lia.
  - apply binary_round_aux_half; lia.
  - replace (Zpos m * 2 ^ (e + 1074))
      with (Zpos (Pos.iter xO m d)
            * 2 ^ (fexp prec emax (digits m + e) + 1074)).
    + apply binary_round_aux_half; [lia|].
      rewrite digits_shift.
      replace (digits m + Zpos d + fexp prec emax (digits m + e))
        with (digits m + e) by lia.
      lia.
    + rewrite iter_xO, <- Z.mul_assoc, <- Z.pow_add_r by lia.
      do 2 f_equal; lia.
Qed.

(** The sum of two positive doubles is the rounding of the exact sum. *)
Lemma add_rounds (x y : double) :
  finite_positive x -> finite_positive y ->
  rounds_to (units x + units y) (x + y).
Proof.
  intros (mx & ex & -> & Bx) (my & ey & -> & By).
  destruct (bounded_canonical _ _ Bx) as [Cx _].
  destruct (bounded_canonical _ _ By) as [Cy _].
  destruct (canonical_facts _ _ Cx) as (Ex & _).
  destruct (canonical_facts _ _ Cy) as (Ey & _).
  cbn [units]; rewrite !Z.mul_1_l.
  unfold add; cbn [SFadd cond_Zopp].
  rewrite <- (shl_align_value mx ex (Z.min ex ey)) by lia.
  rewrite <- (shl_align_value my ey (Z.min ex ey)) by lia.
  rewrite <- Z.mul_add_distr_r, <- Pos2Z.inj_add.
  cbn [binary_normalize].
  apply binary_round_half; lia.
Qed.

(** ** Halving, subtracting and multiplying *)

Lemma of_int_2 : of_int 2 = S754_finite false 4503599627370496 (-51).
Proof. reflexivity. Qed.

(** Rounding a small mantissa at the smallest exponent, from any
    location: nothing is shifted out. *)
Lemma binary_round_aux_small (q : positive) (l : location) :
  Zpos q < 2 ^ 52 ->
  exists m,
    binary_round_aux prec emax false (Zpos q) (-1074) l
    = S754_finite false m (-1074) /\
    bounded prec emax m (-1074) = true /\ Zpos q <= Zpos m.
Proof.
  intros H.
  assert (S0 : forall p : positive,
             Zpos p <= 2 ^ 52 ->
             forall l', shr_fexp prec emax (Zpos p) (-1074) l'
                        = (shr_record_of_loc (Zpos p) l', -1074)
                        /\ bounded prec emax p (-1074) = true).
  { intros p Hp l'.
    assert (Dp : digits p <= 53).
    { pose proof (digits_bounds p) as [L _].
      destruct (Z.le_gt_cases (digits p) 53) as [|G]; auto.
      assert (2 ^ 53 <= 2 ^ (digits p - 1)) by (apply Z.pow_le_mono_r; lia).
      change (2 ^ 52) with 4503599627370496 in Hp.
      change (2 ^ 53) with 9007199254740992 in *. lia. }
    pose proof (digits_pos p).
    assert (F : fexp prec emax (digits p + -1074) = -1074)
      by (rewrite fexp_eq; lia).
    split.
    - unfold shr_fexp; cbn [Zdigits2]; fold (digits p).
      rewrite F; reflexivity.
    - unfold bounded, canonical_mantissa; fold (digits p).
      rewrite F; reflexivity. }
  unfold binary_round_aux.
  destruct (S0 q ltac:(lia) l) as [-> _].
  assert (R : exists qr,
             round_nearest_even (shr_m (shr_record_of_loc (Zpos q) l))
               (loc_of_shr_record (shr_record_of_loc (Zpos q) l))
             = Zpos qr /\ Zpos q <= Zpos qr <= Zpos q + 1).
  { destruct l as [|[]]; cbn.
    - exists q; split; [reflexivity|lia].
    - destruct q; cbn; eexists; split; try reflexivity; lia.
    - exists q; split; [reflexivity|lia].
    - exists (q + 1)%positive; split; [reflexivity|lia]. }
  destruct R as (qr & -> & Qr).
  destruct (S0 qr ltac:(lia) loc_Exact) as [-> B].
  cbn [shr_m shr_record_of_loc].
  exists qr; split; [reflexivity|split; [exact B|lia]].
Qed.

(** Halving a positive double: the quotient is not below a double whose
    double the dividend is not below. *)
Lemma div_two_ge (m : positive) (e : Z) (d : Z) :
  bounded prec emax m e = true ->
  0 < d -> (grid d | d) -> 2 * d <= Zpos m * 2 ^ (e + 1074) ->
  (S754_finite false m e / of_int 2)%dbl = S754_infinity false \/
  (finite_positive (S754_finite false m e / of_int 2)%dbl /\
   d <= units (S754_finite false m e / of_int 2)%dbl).
Proof.
  intros B D0 Rd Le.
  destruct (bounded_canonical _ _ B) as [C _].
  destruct (canonical_facts _ _ C) as (E0 & Dm & Nm).
  pose proof (digits_pos m) as Pm.
  pose proof (digits_bounds m) as [Lm Um].
  rewrite of_int_2; unfold div, SFdiv, SFdiv_core_binary; cbn [xorb].
  change (Zdigits2 (Zpos m)) with (digits m).
  change (Zdigits2 4503599627370496) with 53.
  cbv zeta.
  assert (He' : Z.min (fexp prec emax (digits m + e - (53 + -51))) (e - -51)
                = Z.max (digits m + e - 55) (-1074))
    by (rewrite fexp_eq; lia).
  rewrite He'; clear He'.
  pose proof (Z_div_mod) as DM.
  destruct (Z.eq_dec e (-1074)) as [->|N4].
  - (* the smallest exponent: the last bit may be lost *)
    replace (Z.max (digits m + -1074 - 55) (-1074)) with (-1074) by lia.
    change (-1074 - -51 - -1074) with 51.
    cbv iota; rewrite Z.shiftl_mul_pow2 by lia.
    specialize (DM (Zpos m * 2 ^ 51) 4503599627370496 ltac:(lia)).
    destruct (Z.div_eucl (Zpos m * 2 ^ 51) 4503599627370496) as [q r].
    change (2 ^ 51) with 2251799813685248 in DM.
    change (-1074 + 1074) with 0 in Le; rewrite Z.mul_1_r in Le.
    assert (Um' : Zpos m < 2 ^ 53).
    { assert (2 ^ digits m <= 2 ^ 53) by (apply Z.pow_le_mono_r; lia). lia. }
    change (2 ^ 53) with 9007199254740992 in Um'.
    destruct q as [|q|q]; try lia.
    destruct (binary_round_aux_small q (new_location 4503599627370496 r))
      as (m' & -> & B' & Q').
    { change (2 ^ 52) with 4503599627370496; lia. }
    right; split.
    + exists m', (-1074); auto.
    + cbn [units]. change (-1074 + 1074) with 0. lia.
  - assert (D53 : digits m = 53) by (apply Nm; lia).
    rewrite D53 in *.
    match goal with
    | |- ?t = S754_infinity false \/ _ =>
        assert (R : rounds_to (Zpos m * 2 ^ (e + 1073)) t)
    end.
    { destruct (Z.eq_dec e (-1073)) as [->|N3].
      - change (Z.max (53 + -1073 - 55) (-1074)) with (-1074).
        change (-1073 - -51 - -1074) with 52.
        cbv iota; rewrite Z.shiftl_mul_pow2 by lia.
        specialize (DM (Zpos m * 2 ^ 52) 4503599627370496 ltac:(lia)).
        destruct (Z.div_eucl (Zpos m * 2 ^ 52) 4503599627370496) as [q r].
        change (2 ^ 52) with 4503599627370496 in DM.
        assert (q = Zpos m) by lia. assert (r = 0) by lia. subst q r.
        change (new_location 4503599627370496 0) with loc_Exact.
        change (-1073 + 1073) with (-1074 + 1074).
        apply binary_round_aux_half; [lia|rewrite fexp_eq; lia].
      - replace (Z.max (53 + e - 55) (-1074)) with (e - 2) by lia.
        replace (e - -51 - (e - 2)) with 53 by lia.
        cbv iota; rewrite Z.shiftl_mul_pow2 by lia.
        specialize (DM (Zpos m * 2 ^ 53) 4503599627370496 ltac:(lia)).
        destruct (Z.div_eucl (Zpos m * 2 ^ 53) 4503599627370496) as [q r].
        change (2 ^ 53) with 9007199254740992 in DM.
        assert (q = Zpos (m~0)) by lia. assert (r = 0) by lia. subst q r.
        change (new_location 4503599627370496 0) with loc_Exact.
        replace (Zpos m * 2 ^ (e + 1073))
          with (Zpos m~0 * 2 ^ (e - 2 + 1074)).
        + apply binary_round_aux_half; [lia|].
          assert (digits m~0 = 54).
          { apply digits_unique. rewrite Pos2Z.inj_xO.
            change (2 ^ (54 - 1)) with (2 * 2 ^ (53 - 1)).
            change (2 ^ 54) with (2 * 2 ^ 53). lia. }
          rewrite fexp_eq; lia.
        + rewrite Pos2Z.inj_xO.
          replace (e + 1073) with (1 + (e - 2 + 1074)) by lia.
          rewrite (Z.pow_add_r 2 1) by lia. change (2 ^ 1) with 2. ring. }
    destruct R as [R|(m' & e' & R & B' & W)]; [left; exact R|right].
    rewrite R; split; [exists m', e'; auto|].
    cbn [units]; rewrite Z.mul_1_l.
    apply (round_ge (Zpos m * 2 ^ (e + 1073))); auto.
    replace (e + 1074) with (1 + (e + 1073)) in Le by lia.
    rewrite (Z.pow_add_r 2 1) in Le by lia. change (2 ^ 1) with 2 in Le.
    lia.
Qed.

(** A double is on its own grid. *)
Lemma units_on_grid (x : double) :
  finite_positive x -> 0 < units x /\ (grid (units x) | units x).
Proof.
  intros (m & e & -> & B).
  destruct (bounded_canonical _ _ B) as [C _].
  destruct (canonical_facts _ _ C) as (E & _).
  cbn [units]; rewrite Z.mul_1_l.
  pose proof (pow2_pos (e + 1074) ltac:(lia)).
  split; [nia|].
  rewrite grid_units, C by exact E.
  exists (Zpos m); reflexivity.
Qed.

Lemma gtb_units (x y : double) :
  finite_positive x -> finite_positive y ->
  (y > x)%dbl = true -> units x < units y.
Proof.
  intros (mx & ex & -> & Bx) (my & ey & -> & By) H.
  destruct (bounded_canonical _ _ Bx) as [Cx _].
  destruct (bounded_canonical _ _ By) as [Cy _].
  cbn [units]; rewrite !Z.mul_1_l.
  now apply SFltb_units.
Qed.

(** The perimeter a valid triangle computes is not below twice a side. *)
Lemma perimeter_ge_sides (a b c : double) :
  finite_positive a -> finite_positive b -> finite_positive c ->
  (a + b > c)%dbl = true -> (b + c > a)%dbl = true ->
  (a + c > b)%dbl = true ->
  (a + b + c)%dbl = S754_infinity false \/
  (finite_positive (a + b + c)%dbl /\
   2 * units a <= units (a + b + c)%dbl /\
   2 * units b <= units (a + b + c)%dbl /\
   2 * units c <= units (a + b + c)%dbl).
Proof.
  intros Fa Fb Fc H1 H2 H3.
  pose proof (add_gt_exact b c a Fb Fc Fa H2) as T2.
  pose proof (add_gt_exact a c b Fa Fc Fb H3) as T3.
  destruct (units_on_grid a Fa) as [Pa Ga].
  destruct (units_on_grid b Fb) as [Pb Gb].
  destruct (units_on_grid c Fc) as [Pc Gc].
  destruct (add_rounds a b Fa Fb) as [Q|(mq & eq & Q & Bq & Wq)].
  - left. rewrite Q. destruct Fc as (mc & ec & -> & _); reflexivity.
  - assert (Fq : finite_positive (a + b)%dbl)
      by (rewrite Q; exists mq, eq; auto).
    pose proof (gtb_units c (a + b)%dbl Fc Fq H1) as T1.
    destruct (add_rounds (a + b)%dbl c Fq Fc) as [P|(mp & ep & P & Bp & Wp)];
      [left; exact P|right].
    assert (Eq : units (a + b)%dbl = Zpos mq * 2 ^ (eq + 1074))
      by (rewrite Q; cbn [units]; lia).
    assert (Ep : units (a + b + c)%dbl = Zpos mp * 2 ^ (ep + 1074))
      by (rewrite P; cbn [units]; lia).
    rewrite <- Eq in Wq. rewrite <- Ep in Wp.
    split; [rewrite P; exists mp, ep; auto|].
    split; [|split].
    + apply (perimeter_ge_twice (units a) (units b) (units c)
               (units (a + b)%dbl)); auto.
    + apply (perimeter_ge_twice (units b) (units a) (units c)
               (units (a + b)%dbl)); auto.
      now rewrite Z.add_comm.
    + apply (round_ge (units (a + b)%dbl + units c)); auto; [lia|].
      now apply grid_double.
Qed.

(** The difference of a positive double and one that is not above it is
    a number that is not negative. *)
Lemma sub_ge (s a : double) :
  finite_positive s -> finite_positive a -> units a <= units s ->
  is_nonneg (s - a)%dbl = true /\ is_finite (s - a)%dbl = true.
Proof.
  intros (ms & es & -> & Bs) (ma & ea & -> & Ba).
  destruct (bounded_canonical _ _ Bs) as [Cs _].
  destruct (bounded_canonical _ _ Ba) as [Ca _].
  destruct (canonical_facts _ _ Cs) as (Es & _).
  destruct (canonical_facts _ _ Ca) as (Ea & _).
  cbn [units]; rewrite !Z.mul_1_l; intros Le.
  unfold sub; cbn [SFsub cond_Zopp].
  pose proof (shl_align_value ms es (Z.min es ea) ltac:(lia) ltac:(lia))
    as Vs.
  pose proof (shl_align_value ma ea (Z.min es ea) ltac:(lia) ltac:(lia))
    as Va.
  rewrite <- Vs, <- Va in Le.
  pose proof (pow2_pos (Z.min es ea + 1074) ltac:(lia)) as P.
  apply Z.mul_le_mono_pos_r in Le; [|exact P].
  destruct (Zpos (fst (shl_align ms es (Z.min es ea)))
            - Zpos (fst (shl_align ma ea (Z.min es ea)))) as [|p|p] eqn:D;
    try lia; cbn [binary_normalize]; [split; reflexivity|].
  assert (Up : Zpos p * 2 ^ (Z.min es ea + 1074)
               <= Zpos ms * 2 ^ (es + 1074)).
  { rewrite <- Vs. apply Z.mul_le_mono_nonneg_r; lia. }
  pose proof (binary_round_le p ms (Z.min es ea) es ltac:(lia) Bs Up) as N.
  destruct (binary_round_half p (Z.min es ea) ltac:(lia))
    as [R|(m' & e' & R & _)]; rewrite R in N |- *.
  - discriminate N.
  - split; reflexivity.
Qed.

(** The product of two numbers that are not negative, the second one
    finite, is not negative, or it is NaN because the first one is
    infinite. *)
Lemma mul_nonneg_cases (x y : double) :
  is_nonneg x = true -> is_nonneg y = true -> is_finite y = true ->
  is_nonneg (x * y)%dbl = true \/
  (x = S754_infinity false /\ (x * y)%dbl = NaN).
Proof.
  destruct x as [sx|[]| |[] mx ex]; try discriminate;
    destruct y as [sy|[]| |[] my ey]; try discriminate; intros _ _ _;
    try (left; reflexivity); try (right; split; reflexivity).
  left; apply binary_round_aux_nonneg; lia.
Qed.

Lemma mul_finite_cases (x y : double) :
  is_nonneg x = true -> is_finite x = true ->
  is_nonneg y = true -> is_finite y = true ->
  is_nonneg (x * y)%dbl = true.
Proof.
  intros Nx Fx Ny Fy.
  destruct (mul_nonneg_cases x y Nx Ny Fy) as [H|[-> _]];
    [exact H|discriminate Fx].
Qed.

Lemma sqrt_nonneg (x : double) :
  is_nonneg x = true -> is_nonneg (sqrt x) = true.
Proof.
  destruct x as [s|[]| |[] m e]; try discriminate; intros _;
    try reflexivity.
  unfold sqrt, SFsqrt, SFsqrt_core_binary.
  match goal with
  | |- context [Z.sqrtrem ?n] =>
      pose proof (Zsqrtrem_fst_nonneg n) as H;
        destruct (Z.sqrtrem n) as [q r]
  end.
  cbn [fst] in H. now apply binary_round_aux_nonneg.
Qed.

End HalfStep.

(** ** Heron's radicand in binary64 *)

(** The semi-perimeter a valid triangle computes is not below a side. *)
Lemma semi_perimeter_ge_sides (a b c : double) :
  finite_positive a -> finite_positive b -> finite_positive c ->
  (a + b > c) = true -> (b + c > a) = true -> (a + c > b) = true ->
  (a + b + c) / of_int 2 = S754_infinity false \/
  (finite_positive ((a + b + c) / of_int 2) /\
   (units a <= units ((a + b + c) / of_int 2))%Z /\
   (units b <= units ((a + b + c) / of_int 2))%Z /\
   (units c <= units ((a + b + c) / of_int 2))%Z).
Proof.
  intros Fa Fb Fc H1 H2 H3.
  destruct (units_on_grid a Fa) as [Pa Ga].
  destruct (units_on_grid b Fb) as [Pb Gb].
  destruct (units_on_grid c Fc) as [Pc Gc].
  destruct (perimeter_ge_sides a b c Fa Fb Fc H1 H2 H3)
    as [P|((mp & ep & P & Bp) & La & Lb & Lc)]; rewrite P in *;
    [left; reflexivity|].
  cbn [units] in La, Lb, Lc; rewrite Z.mul_1_l in La, Lb, Lc.
  destruct (div_two_ge mp ep (units a) Bp Pa Ga La) as [S|[Fs Sa]];
    [left; exact S|].
  destruct (div_two_ge mp ep (units b) Bp Pb Gb Lb) as [S|[_ Sb]];
    [left; exact S|].
  destruct (div_two_ge mp ep (units c) Bp Pc Gc Lc) as [S|[_ Sc]];
    [left; exact S|].
  right; auto.
Qed.

Lemma leb_zero_nonneg (x : double) :
  (of_int 0 <= x) = true -> is_nonneg x = true.
Proof. destruct x as [s|[]| |[] m e]; try discriminate; reflexivity. Qed.

Lemma finite_positive_is_finite (x : double) :
  finite_positive x -> is_nonneg x = true /\ is_finite x = true.
Proof. intros (m & e & -> & _); split; reflexivity. Qed.

(** The product [s (s - a) (s - b) (s - c)] of four doubles, taken from
    the left: when [s] and the three differences are numbers that are
    not negative, it is not negative, or it is NaN after one of the two
    first products has overflowed. *)
Lemma product_nonneg_or_nan (s u v w : double) :
  is_nonneg s = true -> is_finite s = true ->
  is_nonneg u = true -> is_finite u = true ->
  is_nonneg v = true -> is_finite v = true ->
  is_nonneg w = true -> is_finite w = true ->
  is_nonneg (s * u * v * w) = true \/
  (s * u * v * w = NaN /\
   (s * u = S754_infinity false \/ s * u * v = S754_infinity false)).
Proof.
  intros Ns Fs Nu Fu Nv Fv Nw Fw.
  pose proof (mul_finite_cases s u Ns Fs Nu Fu) as N1.
  destruct (mul_nonneg_cases (s * u) v N1 Nv Fv) as [N2|[I1 E2]].
  - destruct (mul_nonneg_cases (s * u * v) w N2 Nw Fw) as [N3|[I2 E3]];
      [left; exact N3|right; auto].
  - right; rewrite E2; split; [reflexivity|left; exact I1].
Qed.

(** C4 (amended): for a Triangle that satisfies its validity invariant,
    the semi-perimeter [s] that [area()] computes is not below a side,
    so the three differences it multiplies are not negative, and the
    radicand it passes to the square root is never negative: it is
    [>= 0], or it is NaN, and NaN only after one of the products
    [s (s - a)] and [s (s - a) (s - b)] has overflowed to infinity.  When
    the radicand is [>= 0] so is the area, and when it is NaN the area
    is NaN.  In exact arithmetic the radicand of the stored sides is
    positive. *)
Theorem valid_triangle_radicand (x : Triangle.t) :
  is_double (Triangle.side_a_ x) = true ->
  is_double (Triangle.side_b_ x) = true ->
  is_double (Triangle.side_c_ x) = true ->
  Triangle.isValid x = true ->
  let a := Triangle.side_a_ x in
  let b := Triangle.side_b_ x in
  let c := Triangle.side_c_ x in
  let s := Triangle.perimeter x / of_int 2 in
  ((of_int 0 <= s - a) = true /\ (of_int 0 <= s - b) = true /\
   (of_int 0 <= s - c) = true) /\
  (Triangle.radicand x < of_int 0) = false /\
  ((of_int 0 <= Triangle.radicand x) = true \/ Triangle.radicand x = NaN) /\
  (Triangle.radicand x = NaN ->
   s * (s - a) = S754_infinity false \/
   s * (s - a) * (s - b) = S754_infinity false) /\
  ((of_int 0 <= Triangle.radicand x) = true ->
   (of_int 0 <= Triangle.area x) = true) /\
  (Triangle.radicand x = NaN -> Triangle.area x = NaN) /\
  (0 < exact_radicand x)%Q.
Proof.
  intros Da Db Dc V a b c s.
  destruct (valid_sides_finite_positive x Da Db Dc V) as (Fa & Fb & Fc).
  assert (X : (0 < exact_radicand x)%Q).
  { destruct (valid_exact_inequalities x Da Db Dc V) as (I1 & I2 & I3).
    apply heron_positive;
      try (apply to_Q_pos; assumption); apply to_Q_lt_add; assumption. }
  assert (A : (of_int 0 <= Triangle.radicand x) = true ->
              (of_int 0 <= Triangle.area x) = true).
  { intros H; apply nonneg_leb_zero, sqrt_nonneg, leb_zero_nonneg, H. }
  assert (AN : Triangle.radicand x = NaN -> Triangle.area x = NaN)
    by (unfold Triangle.area; intros ->; reflexivity).
  assert (R : Triangle.radicand x = s * (s - a) * (s - b) * (s - c))
    by reflexivity.
  assert (G : (a + b > c) = true /\ (b + c > a) = true /\
              (a + c > b) = true).
  { unfold Triangle.isValid, Triangle.satisfiesTriangleInequality in V.
    split_andb; auto. }
  destruct G as (G1 & G2 & G3).
  pose proof (semi_perimeter_ge_sides a b c Fa Fb Fc G1 G2 G3) as SP.
  change (a + b + c) with (Triangle.perimeter x) in SP; fold s in SP.
  destruct SP as [S|(Fs & La & Lb & Lc)].
  - (* the perimeter has overflowed: every factor is plus infinity *)
    subst a b c.
    destruct Fa as (ma & ea & Ea & _), Fb as (mb & eb & Eb & _),
             Fc as (mc & ec & Ec & _).
    rewrite R, S, Ea, Eb, Ec in *.
    repeat split; try reflexivity; auto; try discriminate.
  - destruct (sub_ge s a Fs Fa La) as [Na Ia].
    destruct (sub_ge s b Fs Fb Lb) as [Nb Ib].
    destruct (sub_ge s c Fs Fc Lc) as [Nc Ic].
    destruct (finite_positive_is_finite s Fs) as [Ns Is].
    split; [repeat split; now apply nonneg_leb_zero|].
    rewrite R in *.
    destruct (product_nonneg_or_nan s (s - a) (s - b) (s - c))
      as [N|[E O]]; auto.
    + repeat split; auto.
      * apply nonneg_or_nan_not_negative; now rewrite N.
      * left; now apply nonneg_leb_zero.
      * intros E; rewrite E in N; discriminate N.
    + repeat split; auto.
      rewrite E; reflexivity.
Qed.

(** The triangle with sides 3, 4, 5: the computed radicand is exactly
    6 * 3 * 2 * 1. *)
Example valid_triangle_radicand_witness :
  (Triangle.radicand (tri 3 4 5) < of_int 0) = false /\
  Triangle.radicand (tri 3 4 5) = of_int 36 /\
  (0 < exact_radicand (tri 3 4 5))%Q.
Proof.
  destruct (valid_triangle_radicand (tri 3 4 5))
    as (_ & N & _ & _ & _ & _ & X); try reflexivity.
  split; [exact N|split; [reflexivity|exact X]].
Defined.
